(** * CRIU support natives of OpenJ9 (runtime/criusupport/criusupport.c)

    A shallow embedding of the JNI natives behind
    [org.eclipse.openj9.criu.CRIUSupport]: the two queries
    [isCRIUSupportEnabledImpl] and [isCheckpointAllowed], the string helper
    [getNativeString] and the checkpoint entry point [checkpointJVMImpl]
    with its goto-based unwinding.

    The file is modelled as compiled for Linux ([LINUX] defined).
    Everything the C code obtains from outside (the JNI, the VM's internal
    functions, the port library, libc and libcriu) is scripted: each call
    site reads the value the call returned from a record.  Every call site
    is executed at most once per invocation, so a record of per-site
    results describes any single run.  The calls the code makes are
    logged, oldest first, in the [events] field of the thread.  Of the
    effects of these calls on the thread only the ones this file itself
    makes are modelled: an exception that a hook leaves pending would
    change the throwable of the result, not its type. *)

From Stdlib Require Import ZArith List Bool Lia String.
From ExtLib Require Import Structures.Monad Data.Monads.StateMonad.
Import ListNotations.
Import MonadNotation.
Local Open Scope Z_scope.
Local Open Scope monad_scope.

(** ** Data model *)

(** The six static fields of [CRIUSupport$CRIUResultType].  A [jfieldID]
    held in the C variable [resultType] is represented by the name of the
    VM slot ([vm->criuSupportSuccess], ...) it was loaded from. *)
Inductive CRIUResultType : Type :=
| SUCCESS
| UNSUPPORTED_OPERATION
| INVALID_ARGUMENTS
| SYSTEM_CHECKPOINT_FAILURE
| JVM_CHECKPOINT_FAILURE
| JVM_RESTORE_FAILURE.

(** NLS messages of the internal errors raised in this file. *)
Inductive NLSMessage : Type :=
| J9NLS_JCL_CRIU_FAILED_TO_CONVERT_JAVA_STRING
| J9NLS_JCL_CRIU_FAILED_TO_OPEN_DIR
| J9NLS_JCL_CRIU_INIT_FAILED
| J9NLS_JCL_CRIU_DUMP_FAILED
| J9NLS_JCL_CRIU_FAILED_TO_CLOSE_DIR.

(** What [currentThread->currentException] can be set to here. *)
Inductive Exception : Type :=
| NativeOutOfMemoryError
| InternalError (msg : NLSMessage) (arg : Z).

(** The three path arguments of [checkpointJVMImpl]. *)
Inductive PathArg : Type := ImagesDir | LogFile | WorkDir.

(** The two descriptor variables of [checkpointJVMImpl]. *)
Inductive FdVar : Type := DirFD | WorkDirFD.

(** A [char *] that is compared with a stack buffer: NULL, the stack
    buffer itself, or memory from the port library's allocator. *)
Inductive CharPtr : Type := PtrNull | PtrStackBuf | PtrHeap.

Definition is_stack_buf (p : CharPtr) : bool :=
  match p with PtrStackBuf => true | _ => false end.

(** JNI references and IDs are opaque machine words; [0] is NULL. *)
Definition jobject : Type := Z.
Definition jfieldID : Type := Z.
Definition jmethodID : Type := Z.
Definition NULL : Z := 0.

(** Calls observed during one invocation. *)
Inductive Event : Type :=
| EEnterVM
| EExitVM
| EAssertNotNull (ok : bool)
| ECopyStringToUTF8 (k : PathArg) (r : CharPtr)
| EAllocateNative (k : PathArg) (size : Z) (r : CharPtr)
| EStoreNul (k : PathArg) (index : Z)
| EFreeUTF8 (k : PathArg) (p : CharPtr)
| EFreeNative (k : PathArg) (p : CharPtr)
| EOpen (v : FdVar) (fd : Z)
| EClose (v : FdVar) (fd : Z) (rc : Z)
| ECriuInitOpts (rc : Z)
| ECriuSetImagesDirFd (fd : Z)
| ECriuSetShellJob (b : bool)
| ECriuSetLogLevel (n : Z)
| ECriuSetLogFile
| ECriuSetLeaveRunning (b : bool)
| ECriuSetExtUnixSk (b : bool)
| ECriuSetFileLocks (b : bool)
| ECriuSetWorkDirFd (fd : Z)
| EAcquireExclusiveVMAccess
| EReleaseExclusiveVMAccess
| EJvmCheckpointHooks (ok : bool)
| ECriuDump (rc : Z)
| EJvmRestoreHooks (ok : bool)
| ECreateLocalRef (ok : bool)
| ENewGlobalRef (obj : jobject) (ref : jobject).

(** The CRIU slots of [J9JavaVM], filled by [setupJNIFieldIDs]. *)
Record J9JavaVM : Type := mkJavaVM {
  criuResultTypeClass : jobject;
  criuResultClass : jobject;
  criuSupportSuccess : jfieldID;
  criuSupportUnsupportedOperation : jfieldID;
  criuSupportInvalidArguments : jfieldID;
  criuSupportSystemCheckpointFailure : jfieldID;
  criuSupportJVMCheckpointFailure : jfieldID;
  criuSupportJVMRestoreFailure : jfieldID;
  criuResultInit : jmethodID
}.

(** The process state this file reads and writes through [currentThread]:
    the VM's CRIU slots, the pending exception, and the log of the calls
    made so far. *)
Record J9VMThread : Type := mkThread {
  javaVM : J9JavaVM;
  currentException : option Exception;
  events : list Event
}.

(** ** Machine integers *)

Definition STRING_BUFFER_SIZE : Z := 256.

(** [UDATA] is the unsigned pointer-sized integer; 64 bits on the Linux
    targets this file is compiled for.  Assigning a (signed) [int32_t] to
    it wraps modulo [2^64]. *)
Definition UDATA_BITS : Z := 64.
Definition to_UDATA (z : Z) : Z := z mod 2 ^ UDATA_BITS.

(** ** Scripted results of the external calls *)

(** Results of the calls [getNativeString] makes for one Java string. *)
Record StringEnv : Type := mkStringEnv {
  (** [copyStringToUTF8WithMemAlloc]: NULL, the caller's buffer, or heap *)
  copyStringToUTF8WithMemAlloc : CharPtr;
  (** [int32_t] returned by [omrstr_convert] with output size 0 *)
  omrstr_convert_size : Z;
  (** whether [j9mem_allocate_memory] returned memory *)
  j9mem_allocate_memory : bool;
  (** [int32_t] returned by the converting [omrstr_convert] *)
  omrstr_convert_result : Z
}.

(** ** The thread monad *)

Definition VM : Type -> Type := state J9VMThread.

Definition call (e : Event) : VM unit :=
  mkState (fun th =>
    match th with
    | mkThread vm pending evs => (tt, mkThread vm pending (evs ++ [e]))
    end).

Definition setCurrentException (x : option Exception) : VM unit :=
  mkState (fun th =>
    match th with
    | mkThread vm _ evs => (tt, mkThread vm x evs)
    end).

Definition getCurrentException : VM (option Exception) :=
  mkState (fun th => (currentException th, th)).

Definition setNativeOutOfMemoryError : VM unit :=
  setCurrentException (Some NativeOutOfMemoryError).

Definition setCurrentExceptionNLSWithArgs (msg : NLSMessage) (arg : Z) : VM unit :=
  setCurrentException (Some (InternalError msg arg)).

(** ** getNativeString *)

(** The label [free:] of [getNativeString]; [j9mem_free_memory] is called
    whenever [mutf8String] is not the stack buffer, also when it is NULL. *)
Definition getNativeString_free (k : PathArg) (mutf8String : CharPtr) : VM unit :=
  if negb (is_stack_buf mutf8String) then call (EFreeUTF8 k mutf8String) else ret tt.

(** Lines 171-185: the terminator store and the converting call. *)
Definition getNativeString_convert (k : PathArg) (e : StringEnv)
    (mutf8String nativeString : CharPtr) (resultType : CRIUResultType)
    (requiredConvertedStringSize : Z)
  : VM (bool * CharPtr * CRIUResultType) :=
  call (EStoreNul k (to_UDATA (requiredConvertedStringSize - 1))) ;;
  (* convert the string *)
  let requiredConvertedStringSize := to_UDATA (omrstr_convert_result e) in
  if requiredConvertedStringSize <? 0 then
    setCurrentExceptionNLSWithArgs J9NLS_JCL_CRIU_FAILED_TO_CONVERT_JAVA_STRING
      requiredConvertedStringSize ;;
    getNativeString_free k mutf8String ;;
    ret (false, nativeString, INVALID_ARGUMENTS)
  else
    getNativeString_free k mutf8String ;;
    ret (true, nativeString, resultType).

(** [getNativeString(currentThread, javaString, &nativeString, &resultType)]:
    the two out-parameters are passed in and returned with the result. *)
Definition getNativeString (k : PathArg) (e : StringEnv)
    (nativeString : CharPtr) (resultType : CRIUResultType)
  : VM (bool * CharPtr * CRIUResultType) :=
  let mutf8String := copyStringToUTF8WithMemAlloc e in
  call (ECopyStringToUTF8 k mutf8String) ;;
  match mutf8String with
  | PtrNull =>
      setNativeOutOfMemoryError ;;
      getNativeString_free k mutf8String ;;
      ret (false, nativeString, JVM_CHECKPOINT_FAILURE)
  | _ =>
      (* get the required size *)
      let requiredConvertedStringSize := to_UDATA (omrstr_convert_size e) in
      if requiredConvertedStringSize <? 0 then
        setCurrentExceptionNLSWithArgs J9NLS_JCL_CRIU_FAILED_TO_CONVERT_JAVA_STRING
          requiredConvertedStringSize ;;
        getNativeString_free k mutf8String ;;
        ret (false, nativeString, INVALID_ARGUMENTS)
      else
        (* Add 1 for NUL terminator *)
        let requiredConvertedStringSize := to_UDATA (requiredConvertedStringSize + 1) in
        if requiredConvertedStringSize >? STRING_BUFFER_SIZE then
          let nativeString := if j9mem_allocate_memory e then PtrHeap else PtrNull in
          call (EAllocateNative k requiredConvertedStringSize nativeString) ;;
          match nativeString with
          | PtrNull =>
              setNativeOutOfMemoryError ;;
              getNativeString_free k mutf8String ;;
              ret (false, nativeString, JVM_CHECKPOINT_FAILURE)
          | _ =>
              getNativeString_convert k e mutf8String nativeString resultType
                requiredConvertedStringSize
          end
        else
          getNativeString_convert k e mutf8String nativeString resultType
            requiredConvertedStringSize
  end.

(** ** checkpointJVMImpl *)

Definition jstring : Type := string.

(** The Java arguments.  [imagesDir] is asserted non-NULL on entry
    ([Assert_CRIU_notNull(imagesDir)]); [logFile] and [workDir] may be
    NULL.  A [jboolean] is only compared with [JNI_FALSE]. *)
Record Request : Type := mkRequest {
  imagesDir : jstring;
  leaveRunning : bool;
  shellJob : bool;
  extUnixSupport : bool;
  logLevel : Z;
  logFile : option jstring;
  fileLocks : bool;
  workDir : option jstring
}.

(** What the calls of one invocation of [checkpointJVMImpl] return. *)
Record World : Type := mkWorld {
  vm_isCheckpointAllowed : bool;
  strings : PathArg -> StringEnv;
  (** [open(path, O_DIRECTORY)] and the [errno] it leaves *)
  open_result : FdVar -> Z;
  open_errno : FdVar -> Z;
  criu_init_opts : Z;
  jvmCheckpointHooks : bool;
  criu_dump : Z;
  jvmRestoreHooks : bool;
  (** [close(fd)] and the [errno] it leaves *)
  close_result : FdVar -> Z;
  close_errno : FdVar -> Z;
  (** whether [j9jni_createLocalRef] returned a reference *)
  j9jni_createLocalRef : bool
}.

(** The local variables of [checkpointJVMImpl]. *)
Record Locals : Type := mkLocals {
  currentExceptionLocalRef : option Exception;
  resultType : CRIUResultType;
  dirFD : Z;
  workDirFD : Z;
  directoryChars : CharPtr;
  logFileChars : CharPtr;
  workDirChars : CharPtr;
  systemReturnCode : Z;
  isAfterCheckpoint : bool
}.

Definition set_currentExceptionLocalRef (x : option Exception) (l : Locals) : Locals :=
  mkLocals x (resultType l) (dirFD l) (workDirFD l) (directoryChars l)
    (logFileChars l) (workDirChars l) (systemReturnCode l) (isAfterCheckpoint l).
Definition set_resultType (x : CRIUResultType) (l : Locals) : Locals :=
  mkLocals (currentExceptionLocalRef l) x (dirFD l) (workDirFD l) (directoryChars l)
    (logFileChars l) (workDirChars l) (systemReturnCode l) (isAfterCheckpoint l).
Definition set_dirFD (x : Z) (l : Locals) : Locals :=
  mkLocals (currentExceptionLocalRef l) (resultType l) x (workDirFD l) (directoryChars l)
    (logFileChars l) (workDirChars l) (systemReturnCode l) (isAfterCheckpoint l).
Definition set_workDirFD (x : Z) (l : Locals) : Locals :=
  mkLocals (currentExceptionLocalRef l) (resultType l) (dirFD l) x (directoryChars l)
    (logFileChars l) (workDirChars l) (systemReturnCode l) (isAfterCheckpoint l).
Definition set_directoryChars (x : CharPtr) (l : Locals) : Locals :=
  mkLocals (currentExceptionLocalRef l) (resultType l) (dirFD l) (workDirFD l) x
    (logFileChars l) (workDirChars l) (systemReturnCode l) (isAfterCheckpoint l).
Definition set_logFileChars (x : CharPtr) (l : Locals) : Locals :=
  mkLocals (currentExceptionLocalRef l) (resultType l) (dirFD l) (workDirFD l)
    (directoryChars l) x (workDirChars l) (systemReturnCode l) (isAfterCheckpoint l).
Definition set_workDirChars (x : CharPtr) (l : Locals) : Locals :=
  mkLocals (currentExceptionLocalRef l) (resultType l) (dirFD l) (workDirFD l)
    (directoryChars l) (logFileChars l) x (systemReturnCode l) (isAfterCheckpoint l).
Definition set_systemReturnCode (x : Z) (l : Locals) : Locals :=
  mkLocals (currentExceptionLocalRef l) (resultType l) (dirFD l) (workDirFD l)
    (directoryChars l) (logFileChars l) (workDirChars l) x (isAfterCheckpoint l).
Definition set_isAfterCheckpoint (x : bool) (l : Locals) : Locals :=
  mkLocals (currentExceptionLocalRef l) (resultType l) (dirFD l) (workDirFD l)
    (directoryChars l) (logFileChars l) (workDirChars l) (systemReturnCode l) x.

(** Lines 212-229: the initialisers. *)
Definition initial_locals : Locals :=
  mkLocals None UNSUPPORTED_OPERATION 0 0 PtrStackBuf PtrStackBuf PtrStackBuf 0 false.

(** The labels of the unwinding code, in the order they appear. *)
Inductive Label : Type :=
| releaseExclusive
| closeWorkDirFD
| freeWorkDir
| freeLog
| freeDir.

Section Checkpoint.

Variable rq : Request.
Variable w : World.

(** The body of a failed [close]: lines 326-332 and 336-342. *)
Definition close_failed (v : FdVar) (l : Locals) : VM Locals :=
  let l := set_systemReturnCode (close_errno w v) l in
  let l := set_resultType
             (if isAfterCheckpoint l then JVM_RESTORE_FAILURE
              else JVM_CHECKPOINT_FAILURE) l in
  setCurrentExceptionNLSWithArgs J9NLS_JCL_CRIU_FAILED_TO_CLOSE_DIR
    (systemReturnCode l) ;;
  ret l.

(** The code under each label, up to the next label. *)
Definition at_releaseExclusive (l : Locals) : VM Locals :=
  call EReleaseExclusiveVMAccess ;;
  ret l.

Definition at_closeWorkDirFD (l : Locals) : VM Locals :=
  let rc := close_result w WorkDirFD in
  call (EClose WorkDirFD (workDirFD l) rc) ;;
  if negb (rc =? 0) then close_failed WorkDirFD l else ret l.

Definition at_freeWorkDir (l : Locals) : VM Locals :=
  let rc := close_result w DirFD in
  call (EClose DirFD (dirFD l) rc) ;;
  l <- (if negb (rc =? 0) then close_failed DirFD l else ret l) ;;
  (if negb (is_stack_buf (workDirChars l))
   then call (EFreeNative WorkDir (workDirChars l)) else ret tt) ;;
  ret l.

Definition at_freeLog (l : Locals) : VM Locals :=
  (if negb (is_stack_buf (logFileChars l))
   then call (EFreeNative LogFile (logFileChars l)) else ret tt) ;;
  ret l.

Definition at_freeDir (l : Locals) : VM Locals :=
  (if negb (is_stack_buf (directoryChars l))
   then call (EFreeNative ImagesDir (directoryChars l)) else ret tt) ;;
  pending <- getCurrentException ;;
  l <- match pending with
       | Some exn =>
           let ok := j9jni_createLocalRef w in
           call (ECreateLocalRef ok) ;;
           setCurrentException None ;;
           if ok then ret (set_currentExceptionLocalRef (Some exn) l)
           else
             (* nothing else to do *)
             setNativeOutOfMemoryError ;;
             ret l
       | None => ret l
       end ;;
  call EExitVM ;;
  ret l.

(** Control reaches a label by [goto] or by falling through, and then
    runs through all the labels below it. *)
Definition from_freeDir (l : Locals) : VM Locals := at_freeDir l.
Definition from_freeLog (l : Locals) : VM Locals :=
  l <- at_freeLog l ;; from_freeDir l.
Definition from_freeWorkDir (l : Locals) : VM Locals :=
  l <- at_freeWorkDir l ;; from_freeLog l.
Definition from_closeWorkDirFD (l : Locals) : VM Locals :=
  l <- at_closeWorkDirFD l ;; from_freeWorkDir l.
Definition from_releaseExclusive (l : Locals) : VM Locals :=
  l <- at_releaseExclusive l ;; from_closeWorkDirFD l.

Definition goto (lbl : Label) (l : Locals) : VM Locals :=
  match lbl with
  | releaseExclusive => from_releaseExclusive l
  | closeWorkDirFD => from_closeWorkDirFD l
  | freeWorkDir => from_freeWorkDir l
  | freeLog => from_freeLog l
  | freeDir => from_freeDir l
  end.

(** Lines 298-320: the section run under exclusive VM access.  It ends at
    [releaseExclusive], by [goto] or by falling through. *)
Definition exclusive_section (l : Locals) : VM (Label * Locals) :=
  call EAcquireExclusiveVMAccess ;;
  call (EJvmCheckpointHooks (jvmCheckpointHooks w)) ;;
  if negb (jvmCheckpointHooks w) then
    ret (releaseExclusive, set_resultType JVM_CHECKPOINT_FAILURE l)
  else
    let l := set_systemReturnCode (criu_dump w) l in
    call (ECriuDump (systemReturnCode l)) ;;
    if systemReturnCode l <? 0 then
      setCurrentExceptionNLSWithArgs J9NLS_JCL_CRIU_DUMP_FAILED (systemReturnCode l) ;;
      ret (releaseExclusive, set_resultType SYSTEM_CHECKPOINT_FAILURE l)
    else
      (* We can only end up here if the CRIU restore was successful *)
      let l := set_isAfterCheckpoint true l in
      call (EJvmRestoreHooks (jvmRestoreHooks w)) ;;
      if negb (jvmRestoreHooks w) then
        ret (releaseExclusive, set_resultType JVM_RESTORE_FAILURE l)
      else
        ret (releaseExclusive, set_resultType SUCCESS l).

(** Lines 276-296: initialising and setting the CRIU options. *)
Definition configure (l : Locals) : VM (Label * Locals) :=
  let l := set_systemReturnCode (criu_init_opts w) l in
  call (ECriuInitOpts (systemReturnCode l)) ;;
  if negb (systemReturnCode l =? 0) then
    setCurrentExceptionNLSWithArgs J9NLS_JCL_CRIU_INIT_FAILED (systemReturnCode l) ;;
    ret (closeWorkDirFD, set_resultType SYSTEM_CHECKPOINT_FAILURE l)
  else
    call (ECriuSetImagesDirFd (dirFD l)) ;;
    call (ECriuSetShellJob (shellJob rq)) ;;
    (if logLevel rq >? 0 then call (ECriuSetLogLevel (logLevel rq)) else ret tt) ;;
    (match logFile rq with Some _ => call ECriuSetLogFile | None => ret tt end) ;;
    call (ECriuSetLeaveRunning (leaveRunning rq)) ;;
    call (ECriuSetExtUnixSk (extUnixSupport rq)) ;;
    call (ECriuSetFileLocks (fileLocks rq)) ;;
    (match workDir rq with
     | Some _ => call (ECriuSetWorkDirFd (workDirFD l))
     | None => ret tt
     end) ;;
    exclusive_section l.

(** Lines 260-274: the optional work directory. *)
Definition open_workDir (l : Locals) : VM (Label * Locals) :=
  match workDir rq with
  | Some _ =>
      '(ok, chars, rt) <- getNativeString WorkDir (strings w WorkDir)
                            (workDirChars l) (resultType l) ;;
      let l := set_resultType rt (set_workDirChars chars l) in
      if negb ok then
        (* errors and return codes are set in the helper *)
        ret (freeWorkDir, l)
      else
        let l := set_workDirFD (open_result w WorkDirFD) l in
        call (EOpen WorkDirFD (workDirFD l)) ;;
        if workDirFD l <? 0 then
          let l := set_systemReturnCode (open_errno w WorkDirFD) l in
          setCurrentExceptionNLSWithArgs J9NLS_JCL_CRIU_FAILED_TO_OPEN_DIR
            (systemReturnCode l) ;;
          ret (freeWorkDir, set_resultType INVALID_ARGUMENTS l)
        else configure l
  | None => configure l
  end.

(** Lines 252-258: opening the image directory. *)
Definition open_imagesDir (l : Locals) : VM (Label * Locals) :=
  let l := set_dirFD (open_result w DirFD) l in
  call (EOpen DirFD (dirFD l)) ;;
  if dirFD l <? 0 then
    let l := set_systemReturnCode (open_errno w DirFD) l in
    setCurrentExceptionNLSWithArgs J9NLS_JCL_CRIU_FAILED_TO_OPEN_DIR
      (systemReturnCode l) ;;
    ret (freeLog, set_resultType INVALID_ARGUMENTS l)
  else open_workDir l.

(** Lines 232-250, then the rest of the body: up to the first [goto], or
    to the fall-through into [releaseExclusive]. *)
Definition checkpoint_body (l : Locals) : VM (Label * Locals) :=
  call EEnterVM ;;
  (* Assert_CRIU_notNull(imagesDir): a [jstring] of the model is not NULL *)
  call (EAssertNotNull true) ;;
  '(ok, chars, rt) <- getNativeString ImagesDir (strings w ImagesDir)
                        (directoryChars l) (resultType l) ;;
  let l := set_resultType rt (set_directoryChars chars l) in
  if negb ok then
    (* errors and return codes are set in the helper *)
    ret (freeDir, l)
  else
    match logFile rq with
    | Some _ =>
        '(ok, chars, rt) <- getNativeString LogFile (strings w LogFile)
                              (logFileChars l) (resultType l) ;;
        let l := set_resultType rt (set_logFileChars chars l) in
        if negb ok then
          (* errors and return codes are set in the helper *)
          ret (freeLog, l)
        else open_imagesDir l
    | None => open_imagesDir l
    end.

(** [constructResult] builds a [CRIUResult] from the result type and the
    throwable. *)
Record CRIUResult : Type := mkResult {
  type : CRIUResultType;
  throwable : option Exception
}.

Definition constructResult (resultType : CRIUResultType)
    (throwable : option Exception) : VM CRIUResult :=
  ret (mkResult resultType throwable).

Definition Java_org_eclipse_openj9_criu_CRIUSupport_checkpointJVMImpl : VM CRIUResult :=
  let l := initial_locals in
  if vm_isCheckpointAllowed w then
    '(lbl, l) <- checkpoint_body l ;;
    l <- goto lbl l ;;
    constructResult (resultType l) (currentExceptionLocalRef l)
  else
    constructResult (resultType l) (currentExceptionLocalRef l).

End Checkpoint.

(** ** The queries and the JNI ID cache *)

(** What the JNI and the VM return to the two queries. *)
Record JNIWorld : Type := mkJNIWorld {
  vm_isCRIUSupportEnabled : bool;
  jni_criu_init_opts : Z;
  FindClass : string -> jobject;
  NewGlobalRef : jobject -> jobject;
  GetStaticFieldID : jobject -> string -> string -> jfieldID;
  GetMethodID : jobject -> string -> string -> jmethodID
}.

Definition getVM : VM J9JavaVM :=
  mkState (fun th => (javaVM th, th)).

Definition putVM (vm : J9JavaVM) : VM unit :=
  mkState (fun th =>
    match th with
    | mkThread _ pending evs => (tt, mkThread vm pending evs)
    end).

(** The trace assertion comes from the generated header [ut_j9criu.h];
    the check is logged and execution goes on, as the code after it
    provides for (a NULL class reference leads to the [else] branch of
    [setupJNIFieldIDs]). *)
Definition Assert_CRIU_notNull (p : Z) : VM unit :=
  call (EAssertNotNull (negb (p =? NULL))).

Definition CRIUResultType_class : string :=
  "org/eclipse/openj9/criu/CRIUSupport$CRIUResultType".
Definition CRIUResult_class : string :=
  "org/eclipse/openj9/criu/CRIUSupport$CRIUResult".
Definition CRIUResultType_sig : string :=
  "Lorg/eclipse/openj9/criu/CRIUSupport$CRIUResultType;".
Definition CRIUResult_init_sig : string :=
  "(Lorg/eclipse/openj9/criu/CRIUSupport$CRIUResultType;Ljava/lang/Throwable;)V".

Section Queries.

Variable j : JNIWorld.

(** One [vm->slot = GetStaticFieldID(env, vm->criuResultTypeClass, name,
    sig); Assert_CRIU_notNull(vm->slot);] statement pair. *)
Definition setupStaticFieldID (name : string)
    (store : jfieldID -> J9JavaVM -> J9JavaVM) : VM unit :=
  vm <- getVM ;;
  let id := GetStaticFieldID j (criuResultTypeClass vm) name CRIUResultType_sig in
  putVM (store id vm) ;;
  Assert_CRIU_notNull id.

Definition setupJNIFieldIDs : VM unit :=
  let criuResultTypeClass_local :=
    FindClass j CRIUResultType_class in
  Assert_CRIU_notNull criuResultTypeClass_local ;;
  vm <- getVM ;;
  let ref := NewGlobalRef j criuResultTypeClass_local in
  call (ENewGlobalRef criuResultTypeClass_local ref) ;;
  putVM (mkJavaVM ref (criuResultClass vm) (criuSupportSuccess vm)
           (criuSupportUnsupportedOperation vm) (criuSupportInvalidArguments vm)
           (criuSupportSystemCheckpointFailure vm) (criuSupportJVMCheckpointFailure vm)
           (criuSupportJVMRestoreFailure vm) (criuResultInit vm)) ;;
  let criuResultClass_local :=
    FindClass j CRIUResult_class in
  Assert_CRIU_notNull criuResultClass_local ;;
  vm <- getVM ;;
  let ref := NewGlobalRef j criuResultClass_local in
  call (ENewGlobalRef criuResultClass_local ref) ;;
  putVM (mkJavaVM (criuResultTypeClass vm) ref (criuSupportSuccess vm)
           (criuSupportUnsupportedOperation vm) (criuSupportInvalidArguments vm)
           (criuSupportSystemCheckpointFailure vm) (criuSupportJVMCheckpointFailure vm)
           (criuSupportJVMRestoreFailure vm) (criuResultInit vm)) ;;
  vm <- getVM ;;
  if negb (criuResultTypeClass vm =? NULL) && negb (criuResultClass vm =? NULL) then
    setupStaticFieldID "SUCCESS" (fun id vm =>
      mkJavaVM (criuResultTypeClass vm) (criuResultClass vm) id
        (criuSupportUnsupportedOperation vm) (criuSupportInvalidArguments vm)
        (criuSupportSystemCheckpointFailure vm) (criuSupportJVMCheckpointFailure vm)
        (criuSupportJVMRestoreFailure vm) (criuResultInit vm)) ;;
    setupStaticFieldID "UNSUPPORTED_OPERATION" (fun id vm =>
      mkJavaVM (criuResultTypeClass vm) (criuResultClass vm) (criuSupportSuccess vm)
        id (criuSupportInvalidArguments vm)
        (criuSupportSystemCheckpointFailure vm) (criuSupportJVMCheckpointFailure vm)
        (criuSupportJVMRestoreFailure vm) (criuResultInit vm)) ;;
    setupStaticFieldID "INVALID_ARGUMENTS" (fun id vm =>
      mkJavaVM (criuResultTypeClass vm) (criuResultClass vm) (criuSupportSuccess vm)
        (criuSupportUnsupportedOperation vm) id
        (criuSupportSystemCheckpointFailure vm) (criuSupportJVMCheckpointFailure vm)
        (criuSupportJVMRestoreFailure vm) (criuResultInit vm)) ;;
    setupStaticFieldID "SYSTEM_CHECKPOINT_FAILURE" (fun id vm =>
      mkJavaVM (criuResultTypeClass vm) (criuResultClass vm) (criuSupportSuccess vm)
        (criuSupportUnsupportedOperation vm) (criuSupportInvalidArguments vm)
        id (criuSupportJVMCheckpointFailure vm)
        (criuSupportJVMRestoreFailure vm) (criuResultInit vm)) ;;
    setupStaticFieldID "JVM_CHECKPOINT_FAILURE" (fun id vm =>
      mkJavaVM (criuResultTypeClass vm) (criuResultClass vm) (criuSupportSuccess vm)
        (criuSupportUnsupportedOperation vm) (criuSupportInvalidArguments vm)
        (criuSupportSystemCheckpointFailure vm) id
        (criuSupportJVMRestoreFailure vm) (criuResultInit vm)) ;;
    setupStaticFieldID "JVM_RESTORE_FAILURE" (fun id vm =>
      mkJavaVM (criuResultTypeClass vm) (criuResultClass vm) (criuSupportSuccess vm)
        (criuSupportUnsupportedOperation vm) (criuSupportInvalidArguments vm)
        (criuSupportSystemCheckpointFailure vm) (criuSupportJVMCheckpointFailure vm)
        id (criuResultInit vm)) ;;
    vm <- getVM ;;
    let id := GetMethodID j (criuResultClass vm) "<init>" CRIUResult_init_sig in
    putVM (mkJavaVM (criuResultTypeClass vm) (criuResultClass vm) (criuSupportSuccess vm)
             (criuSupportUnsupportedOperation vm) (criuSupportInvalidArguments vm)
             (criuSupportSystemCheckpointFailure vm) (criuSupportJVMCheckpointFailure vm)
             (criuSupportJVMRestoreFailure vm) id) ;;
    Assert_CRIU_notNull id
  else
    call EEnterVM ;;
    setNativeOutOfMemoryError ;;
    call EExitVM.

Definition Java_org_eclipse_openj9_criu_CRIUSupport_isCRIUSupportEnabledImpl : VM bool :=
  res <- (if vm_isCRIUSupportEnabled j then
            let rc := jni_criu_init_opts j in
            call (ECriuInitOpts rc) ;;
            ret (rc =? 0)
          else ret false) ;;
  setupJNIFieldIDs ;;
  ret res.

End Queries.

(** The VM function [isCheckpointAllowed] behind the second query is the
    one [checkpointJVMImpl] consults: [vm_isCheckpointAllowed]. *)
Definition Java_org_eclipse_openj9_criu_CRIUSupport_isCheckpointAllowed (w : World)
  : VM bool :=
  let res := false in
  if vm_isCheckpointAllowed w then ret true else ret res.

(** ** Observing one invocation *)

(** A native is entered with no pending exception; the log starts empty. *)
Definition on_entry (vm : J9JavaVM) : J9VMThread := mkThread vm None [].

Definition checkpoint (vm : J9JavaVM) (rq : Request) (w : World)
  : CRIUResult * J9VMThread :=
  runState (Java_org_eclipse_openj9_criu_CRIUSupport_checkpointJVMImpl rq w)
    (on_entry vm).

Definition outcome (vm : J9JavaVM) (rq : Request) (w : World) : CRIUResultType :=
  type (fst (checkpoint vm rq w)).

Definition trace (vm : J9JavaVM) (rq : Request) (w : World) : list Event :=
  events (snd (checkpoint vm rq w)).

(** The locals at the moment control enters the unwinding code (the
    initial values when the gate is closed and no code runs). *)
Definition locals_before_release (vm : J9JavaVM) (rq : Request) (w : World) : Locals :=
  if vm_isCheckpointAllowed w
  then snd (fst (runState (checkpoint_body rq w initial_locals) (on_entry vm)))
  else initial_locals.

Definition is_failed_close (e : Event) : bool :=
  match e with
  | EClose _ _ rc => negb (rc =? 0)
  | _ => false
  end.

Definition some_close_failed (tr : list Event) : bool := existsb is_failed_close tr.

(** The resource handles [checkpointJVMImpl] owns: the two descriptors and
    the three native path strings when they live on the heap.  (The UTF-8
    copy made inside [getNativeString] is private to the helper, which
    frees it before it returns.) *)
Inductive Handle : Type :=
| HFd (v : FdVar)
| HNative (k : PathArg).

Definition Handle_eqb (a b : Handle) : bool :=
  match a, b with
  | HFd DirFD, HFd DirFD | HFd WorkDirFD, HFd WorkDirFD => true
  | HNative ImagesDir, HNative ImagesDir
  | HNative LogFile, HNative LogFile
  | HNative WorkDir, HNative WorkDir => true
  | _, _ => false
  end.

Definition is_heap (p : CharPtr) : bool :=
  match p with PtrHeap => true | _ => false end.

(** A successful [open] acquires a descriptor, a successful allocation a
    native string. *)
Definition acquires (ev : Event) : list Handle :=
  match ev with
  | EOpen v fd => if fd <? 0 then [] else [HFd v]
  | EAllocateNative k _ p => if is_heap p then [HNative k] else []
  | _ => []
  end.

(** [close] releases a descriptor; [j9mem_free_memory] releases a native
    string, unless it is handed NULL. *)
Definition releases (ev : Event) : list Handle :=
  match ev with
  | EClose v _ _ => [HFd v]
  | EFreeNative k p => if is_heap p then [HNative k] else []
  | _ => []
  end.

Definition acquired (tr : list Event) : list Handle := flat_map acquires tr.
Definition released (tr : list Event) : list Handle := flat_map releases tr.

(** [a] occurs before a later [b] in [l]. *)
Fixpoint precedesb (a b : Handle) (l : list Handle) : bool :=
  match l with
  | [] => false
  | x :: l' => (Handle_eqb x a && existsb (Handle_eqb b) l') || precedesb a b l'
  end.

(** [s] is [l] with some elements left out. *)
Fixpoint subseqb (s l : list Handle) {struct l} : bool :=
  match s, l with
  | [], _ => true
  | _ :: _, [] => false
  | x :: s', y :: l' => if Handle_eqb x y then subseqb s' l' else subseqb s l'
  end.

(** The order of the acquisitions in the body, and the order of the
    releases under the labels. *)
Definition acquisition_order : list Handle :=
  [HNative ImagesDir; HNative LogFile; HFd DirFD; HNative WorkDir; HFd WorkDirFD].

Definition release_order : list Handle :=
  [HFd WorkDirFD; HFd DirFD; HNative WorkDir; HNative LogFile; HNative ImagesDir].

(** Selections of events used to read a trace. *)
Definition is_open_of (v : FdVar) (ev : Event) : bool :=
  match ev, v with
  | EOpen DirFD _, DirFD | EOpen WorkDirFD _, WorkDirFD => true
  | _, _ => false
  end.

Definition is_acquire_exclusive (ev : Event) : bool :=
  match ev with EAcquireExclusiveVMAccess => true | _ => false end.

Definition is_release_exclusive (ev : Event) : bool :=
  match ev with EReleaseExclusiveVMAccess => true | _ => false end.

(** [close] and [j9mem_free_memory] calls of [checkpointJVMImpl]. *)
Definition is_handle_release (ev : Event) : bool :=
  match ev with
  | EClose _ _ _ | EFreeNative _ _ => true
  | _ => false
  end.

Definition is_exclusive_or_handle_release (ev : Event) : bool :=
  match ev with
  | EAcquireExclusiveVMAccess | EReleaseExclusiveVMAccess => true
  | _ => is_handle_release ev
  end.

(** An allocation that returned NULL. *)
Definition is_failed_allocation (ev : Event) : bool :=
  match ev with
  | ECopyStringToUTF8 _ PtrNull | EAllocateNative _ _ PtrNull => true
  | _ => false
  end.

Definition is_dump_or_restore_hooks (ev : Event) : bool :=
  match ev with
  | ECriuDump _ | EJvmRestoreHooks _ => true
  | _ => false
  end.

(** ** Concrete requests and worlds *)

(** A path that fits the 256-byte stack buffers, and one that does not. *)
Definition short_path : StringEnv := mkStringEnv PtrStackBuf 8 true 8.
Definition long_path : StringEnv := mkStringEnv PtrHeap 300 true 300.

Definition images_only : Request :=
  mkRequest "/tmp/images"%string false false false 0 None false None.

Definition with_workDir : Request :=
  mkRequest "/tmp/images"%string true false false 2 (Some "criu.log"%string) false
    (Some "/tmp/work"%string).

(** Every call succeeds; [open] returns descriptors 5 and 6. *)
Definition all_succeed : World :=
  mkWorld true (fun _ => short_path)
    (fun v => match v with DirFD => 5 | WorkDirFD => 6 end) (fun _ => 0)
    0 true 0 true (fun _ => 0) (fun _ => 0) true.

Definition gate_closed : World :=
  mkWorld false (strings all_succeed) (open_result all_succeed)
    (open_errno all_succeed) 0 true 0 true (fun _ => 0) (fun _ => 0) true.

(** [open] of the image directory fails with ENOENT. *)
Definition no_images_dir : World :=
  mkWorld true (fun _ => short_path)
    (fun v => match v with DirFD => -1 | WorkDirFD => 6 end) (fun _ => 2)
    0 true 0 true (fun _ => 0) (fun _ => 0) true.

(** [criu_dump] fails. *)
Definition dump_fails : World :=
  mkWorld true (fun _ => short_path) (open_result all_succeed) (fun _ => 0)
    0 true (-1) true (fun _ => 0) (fun _ => 0) true.

(** [criu_dump] fails, then closing the image directory fails with EIO. *)
Definition dump_fails_close_fails : World :=
  mkWorld true (fun _ => short_path) (open_result all_succeed) (fun _ => 0)
    0 true (-1) true
    (fun v => match v with DirFD => -1 | WorkDirFD => 0 end) (fun _ => 5) true.

(** The dump succeeds and the restore hooks fail. *)
Definition restore_hooks_fail : World :=
  mkWorld true (fun _ => short_path) (open_result all_succeed) (fun _ => 0)
    0 true 0 false (fun _ => 0) (fun _ => 0) true.

(** The work directory path needs a heap buffer. *)
Definition long_workDir : World :=
  mkWorld true
    (fun k => match k with WorkDir => long_path | _ => short_path end)
    (open_result all_succeed) (fun _ => 0)
    0 true 0 true (fun _ => 0) (fun _ => 0) true.

(** [omrstr_convert] reports an error (a negative [int32_t]) for the image
    directory string, on both calls. *)
Definition unconvertible_path : StringEnv := mkStringEnv PtrStackBuf (-1) true (-1).

Definition unconvertible_images_dir : World :=
  mkWorld true
    (fun k => match k with ImagesDir => unconvertible_path | _ => short_path end)
    (open_result all_succeed) (fun _ => 0)
    0 true 0 true (fun _ => 0) (fun _ => 0) true.

(** The JNI finds both classes and every ID; CRIU is enabled and
    initialises. *)
Definition jni_ready : JNIWorld :=
  mkJNIWorld true 0 (fun _ => 11) (fun obj => obj + 100) (fun _ _ _ => 21)
    (fun _ _ _ => 31).

(** A VM whose CRIU slots have not been filled yet. *)
Definition empty_vm : J9JavaVM :=
  mkJavaVM NULL NULL NULL NULL NULL NULL NULL NULL NULL.



(** ** Summaries used in the proofs

    The definitions below describe, as plain values, what the monadic code
    above computes; each is proved equal to a run of that code further
    down. *)

(** *** One call of [getNativeString]

    The three things a caller sees of a conversion started on the stack
    buffer: the result, the pointer left in [*nativeString], and the calls
    made.  They are read off a run of the helper itself. *)
Definition gns_run (k : PathArg) (e : StringEnv) :=
  runState (getNativeString k e PtrStackBuf UNSUPPORTED_OPERATION) (on_entry empty_vm).
Definition gns_ok (e : StringEnv) : bool := fst (fst (fst (gns_run ImagesDir e))).
Definition gns_chars (e : StringEnv) : CharPtr := snd (fst (fst (gns_run ImagesDir e))).
Definition gns_events (k : PathArg) (e : StringEnv) : list Event :=
  events (snd (gns_run k e)).

(** Events logged by [getNativeString] and by nothing else. *)
Definition is_helper_event (ev : Event) : bool :=
  match ev with
  | ECopyStringToUTF8 _ _ | EAllocateNative _ _ _ | EStoreNul _ _ | EFreeUTF8 _ _ => true
  | _ => false
  end.

(** The [criu_set_*] calls. *)
Definition is_configure_event (ev : Event) : bool :=
  match ev with
  | ECriuSetImagesDirFd _ | ECriuSetShellJob _ | ECriuSetLogLevel _ | ECriuSetLogFile
  | ECriuSetLeaveRunning _ | ECriuSetExtUnixSk _ | ECriuSetFileLocks _
  | ECriuSetWorkDirFd _ => true
  | _ => false
  end.

(** *** The unwinding code *)

Section Unwinding.

Variable w : World.

Definition close_fails (v : FdVar) : bool := negb (close_result w v =? 0).

Definition late_failure (l : Locals) : CRIUResultType :=
  if isAfterCheckpoint l then JVM_RESTORE_FAILURE else JVM_CHECKPOINT_FAILURE.

Definition close_exception (v : FdVar) : option Exception :=
  Some (InternalError J9NLS_JCL_CRIU_FAILED_TO_CLOSE_DIR (close_errno w v)).

(** Whether a [close] fails on the way down from a label. *)
Definition closes_fail (lbl : Label) : bool :=
  match lbl with
  | releaseExclusive | closeWorkDirFD => close_fails WorkDirFD || close_fails DirFD
  | freeWorkDir => close_fails DirFD
  | freeLog | freeDir => false
  end.

Definition unwound_resultType (lbl : Label) (l : Locals) : CRIUResultType :=
  if closes_fail lbl then late_failure l else resultType l.

Definition pending_after_closes (lbl : Label) (pending : option Exception)
  : option Exception :=
  match lbl with
  | releaseExclusive | closeWorkDirFD =>
      if close_fails DirFD then close_exception DirFD
      else if close_fails WorkDirFD then close_exception WorkDirFD
      else pending
  | freeWorkDir => if close_fails DirFD then close_exception DirFD else pending
  | freeLog | freeDir => pending
  end.

Definition free_native (k : PathArg) (p : CharPtr) : list Event :=
  if negb (is_stack_buf p) then [EFreeNative k p] else [].

Definition tail_events (pending : option Exception) : list Event :=
  match pending with
  | Some _ => [ECreateLocalRef (j9jni_createLocalRef w)]
  | None => []
  end ++ [EExitVM].

Definition unwind_events (lbl : Label) (l : Locals) (pending : option Exception)
  : list Event :=
  match lbl with releaseExclusive => [EReleaseExclusiveVMAccess] | _ => [] end ++
  match lbl with
  | releaseExclusive | closeWorkDirFD =>
      [EClose WorkDirFD (workDirFD l) (close_result w WorkDirFD)]
  | _ => []
  end ++
  match lbl with
  | releaseExclusive | closeWorkDirFD | freeWorkDir =>
      [EClose DirFD (dirFD l) (close_result w DirFD)]
        ++ free_native WorkDir (workDirChars l)
  | _ => []
  end ++
  match lbl with freeDir => [] | _ => free_native LogFile (logFileChars l) end ++
  free_native ImagesDir (directoryChars l) ++
  tail_events (pending_after_closes lbl pending).

Definition unwound_throwable (lbl : Label) (l : Locals) (pending : option Exception)
  : option Exception :=
  match pending_after_closes lbl pending with
  | Some exn => if j9jni_createLocalRef w then Some exn else currentExceptionLocalRef l
  | None => currentExceptionLocalRef l
  end.

End Unwinding.

(** *** The body *)

Section BodyResult.

Variable vm : J9JavaVM.
Variable rq : Request.
Variable w : World.

Definition rt_after_string (k : PathArg) (rt : CRIUResultType) : CRIUResultType :=
  if gns_ok (strings w k) then rt else JVM_CHECKPOINT_FAILURE.

Definition exclusive_result (l : Locals) (evs : list Event)
  : Label * Locals * J9VMThread :=
  let evs := evs ++ [EAcquireExclusiveVMAccess]
                 ++ [EJvmCheckpointHooks (jvmCheckpointHooks w)] in
  if negb (jvmCheckpointHooks w) then
    (releaseExclusive, set_resultType JVM_CHECKPOINT_FAILURE l, mkThread vm None evs)
  else
    let l := set_systemReturnCode (criu_dump w) l in
    let evs := evs ++ [ECriuDump (criu_dump w)] in
    if criu_dump w <? 0 then
      (releaseExclusive, set_resultType SYSTEM_CHECKPOINT_FAILURE l,
       mkThread vm (Some (InternalError J9NLS_JCL_CRIU_DUMP_FAILED (criu_dump w))) evs)
    else
      let l := set_isAfterCheckpoint true l in
      let evs := evs ++ [EJvmRestoreHooks (jvmRestoreHooks w)] in
      if negb (jvmRestoreHooks w) then
        (releaseExclusive, set_resultType JVM_RESTORE_FAILURE l, mkThread vm None evs)
      else
        (releaseExclusive, set_resultType SUCCESS l, mkThread vm None evs).

Definition configure_events (l : Locals) : list Event :=
  [ECriuSetImagesDirFd (dirFD l)] ++ [ECriuSetShellJob (shellJob rq)] ++
  (if logLevel rq >? 0 then [ECriuSetLogLevel (logLevel rq)] else []) ++
  (match logFile rq with Some _ => [ECriuSetLogFile] | None => [] end) ++
  [ECriuSetLeaveRunning (leaveRunning rq)] ++ [ECriuSetExtUnixSk (extUnixSupport rq)] ++
  [ECriuSetFileLocks (fileLocks rq)] ++
  (match workDir rq with Some _ => [ECriuSetWorkDirFd (workDirFD l)] | None => [] end).

Definition configure_result (l : Locals) (evs : list Event)
  : Label * Locals * J9VMThread :=
  let l := set_systemReturnCode (criu_init_opts w) l in
  let evs := evs ++ [ECriuInitOpts (criu_init_opts w)] in
  if negb (criu_init_opts w =? 0) then
    (closeWorkDirFD, set_resultType SYSTEM_CHECKPOINT_FAILURE l,
     mkThread vm (Some (InternalError J9NLS_JCL_CRIU_INIT_FAILED (criu_init_opts w))) evs)
  else exclusive_result l (evs ++ configure_events l).

Definition open_workDir_result (l : Locals) (evs : list Event)
  : Label * Locals * J9VMThread :=
  match workDir rq with
  | Some _ =>
      let e := strings w WorkDir in
      let l := set_resultType (rt_after_string WorkDir (resultType l))
                 (set_workDirChars (gns_chars e) l) in
      let evs := evs ++ gns_events WorkDir e in
      if negb (gns_ok e) then
        (freeWorkDir, l, mkThread vm (Some NativeOutOfMemoryError) evs)
      else
        let l := set_workDirFD (open_result w WorkDirFD) l in
        let evs := evs ++ [EOpen WorkDirFD (open_result w WorkDirFD)] in
        if open_result w WorkDirFD <? 0 then
          (freeWorkDir,
           set_resultType INVALID_ARGUMENTS
             (set_systemReturnCode (open_errno w WorkDirFD) l),
           mkThread vm
             (Some (InternalError J9NLS_JCL_CRIU_FAILED_TO_OPEN_DIR
                      (open_errno w WorkDirFD))) evs)
        else configure_result l evs
  | None => configure_result l evs
  end.

Definition open_imagesDir_result (l : Locals) (evs : list Event)
  : Label * Locals * J9VMThread :=
  let l := set_dirFD (open_result w DirFD) l in
  let evs := evs ++ [EOpen DirFD (open_result w DirFD)] in
  if open_result w DirFD <? 0 then
    (freeLog,
     set_resultType INVALID_ARGUMENTS (set_systemReturnCode (open_errno w DirFD) l),
     mkThread vm
       (Some (InternalError J9NLS_JCL_CRIU_FAILED_TO_OPEN_DIR (open_errno w DirFD)))
       evs)
  else open_workDir_result l evs.

(** The label the body leaves at, with the locals and the thread there. *)
Definition body_result : Label * Locals * J9VMThread :=
  let e := strings w ImagesDir in
  let l := set_resultType (rt_after_string ImagesDir UNSUPPORTED_OPERATION)
             (set_directoryChars (gns_chars e) initial_locals) in
  let evs := [EEnterVM] ++ [EAssertNotNull true] ++ gns_events ImagesDir e in
  if negb (gns_ok e) then (freeDir, l, mkThread vm (Some NativeOutOfMemoryError) evs)
  else
    match logFile rq with
    | Some _ =>
        let e := strings w LogFile in
        let l := set_resultType (rt_after_string LogFile (resultType l))
                   (set_logFileChars (gns_chars e) l) in
        let evs := evs ++ gns_events LogFile e in
        if negb (gns_ok e) then
          (freeLog, l, mkThread vm (Some NativeOutOfMemoryError) evs)
        else open_imagesDir_result l evs
    | None => open_imagesDir_result l evs
    end.

End BodyResult.

(** *** The ID cache after [setupJNIFieldIDs] *)

Definition cache_after (j : JNIWorld) (vm : J9JavaVM) : J9JavaVM :=
  let typeClass := NewGlobalRef j (FindClass j CRIUResultType_class) in
  let resultClass := NewGlobalRef j (FindClass j CRIUResult_class) in
  let field name := GetStaticFieldID j typeClass name CRIUResultType_sig in
  if negb (typeClass =? NULL) && negb (resultClass =? NULL) then
    mkJavaVM typeClass resultClass
      (field "SUCCESS"%string) (field "UNSUPPORTED_OPERATION"%string)
      (field "INVALID_ARGUMENTS"%string) (field "SYSTEM_CHECKPOINT_FAILURE"%string)
      (field "JVM_CHECKPOINT_FAILURE"%string) (field "JVM_RESTORE_FAILURE"%string)
      (GetMethodID j resultClass "<init>" CRIUResult_init_sig)
  else
    mkJavaVM typeClass resultClass
      (criuSupportSuccess vm) (criuSupportUnsupportedOperation vm)
      (criuSupportInvalidArguments vm) (criuSupportSystemCheckpointFailure vm)
      (criuSupportJVMCheckpointFailure vm) (criuSupportJVMRestoreFailure vm)
      (criuResultInit vm).

(** ** Four claims as the specification states them *)

(** C2: when a close fails, an earlier failure classification stands
    unless the dump had already succeeded. *)
Definition release_failure_keeps_earlier_failure
    (vm : J9JavaVM) (rq : Request) (w : World) : Prop :=
  some_close_failed (trace vm rq w) = true ->
  resultType (locals_before_release vm rq w) <> SUCCESS ->
  isAfterCheckpoint (locals_before_release vm rq w) = false ->
  outcome vm rq w = resultType (locals_before_release vm rq w).

(** C7: a negative dump status makes the outcome
    SYSTEM_CHECKPOINT_FAILURE. *)
Definition negative_dump_is_system_failure
    (vm : J9JavaVM) (rq : Request) (w : World) : Prop :=
  forall rc, In (ECriuDump rc) (trace vm rq w) -> rc < 0 ->
  outcome vm rq w = SYSTEM_CHECKPOINT_FAILURE.

(** C8: of two acquired and released handles, the one acquired later is
    released first. *)
Definition released_in_reverse_order (vm : J9JavaVM) (rq : Request) (w : World) : Prop :=
  forall a b,
    precedesb a b (acquired (trace vm rq w)) = true ->
    In a (released (trace vm rq w)) -> In b (released (trace vm rq w)) ->
    precedesb b a (released (trace vm rq w)) = true.

(** C9: a query leaves the VM slots, the pending exception and the log of
    calls as they were. *)
Definition has_no_side_effect {A : Type} (q : VM A) : Prop :=
  forall th, snd (runState q th) = th.

(** ** Further observations of an invocation *)

(** The throwable handed to [constructResult], and the exception left
    pending in the thread when the native returns. *)
Definition result_throwable (vm : J9JavaVM) (rq : Request) (w : World)
  : option Exception :=
  throwable (fst (checkpoint vm rq w)).

Definition pending_on_return (vm : J9JavaVM) (rq : Request) (w : World)
  : option Exception :=
  currentException (snd (checkpoint vm rq w)).

(** The pending exception after the unwinding from a label: line 357
    clears it, line 361 sets an OutOfMemoryError when no local reference
    could be made. *)
Definition pending_at_return (w : World) (lbl : Label) (pending : option Exception)
  : option Exception :=
  match pending_after_closes w lbl pending with
  | Some _ => if j9jni_createLocalRef w then None else Some NativeOutOfMemoryError
  | None => None
  end.

(** The [criu_set_*] calls a request asks for, with the descriptors
    [open] returned: lines 283-296. *)
Definition requested_settings (rq : Request) (w : World) : list Event :=
  [ECriuSetImagesDirFd (open_result w DirFD); ECriuSetShellJob (shellJob rq)]
  ++ (if logLevel rq >? 0 then [ECriuSetLogLevel (logLevel rq)] else [])
  ++ (match logFile rq with Some _ => [ECriuSetLogFile] | None => [] end)
  ++ [ECriuSetLeaveRunning (leaveRunning rq);
      ECriuSetExtUnixSk (extUnixSupport rq);
      ECriuSetFileLocks (fileLocks rq)]
  ++ (match workDir rq with
      | Some _ => [ECriuSetWorkDirFd (open_result w WorkDirFD)]
      | None => []
      end).

(** More selections of events. *)
Definition is_close (ev : Event) : bool :=
  match ev with EClose _ _ _ => true | _ => false end.

Definition is_open (ev : Event) : bool :=
  match ev with EOpen _ _ => true | _ => false end.

Definition is_criu_call (ev : Event) : bool :=
  match ev with
  | ECriuInitOpts _ | ECriuDump _ => true
  | _ => is_configure_event ev
  end.

Definition is_configure_or_acquire (ev : Event) : bool :=
  match ev with
  | EAcquireExclusiveVMAccess => true
  | _ => is_configure_event ev
  end.

Definition is_vm_access (ev : Event) : bool :=
  match ev with EEnterVM | EExitVM => true | _ => false end.

(** The calls made between acquire and release: the hooks and the dump. *)
Definition is_guarded_call (ev : Event) : bool :=
  match ev with
  | EJvmCheckpointHooks _ | ECriuDump _ | EJvmRestoreHooks _ => true
  | _ => false
  end.

Definition is_exclusive_phase (ev : Event) : bool :=
  match ev with
  | EAcquireExclusiveVMAccess | EReleaseExclusiveVMAccess => true
  | _ => is_guarded_call ev
  end.

Definition is_failed_local_ref (ev : Event) : bool :=
  match ev with ECreateLocalRef false => true | _ => false end.

Definition is_free_of_stack_buf (ev : Event) : bool :=
  match ev with
  | EFreeUTF8 _ PtrStackBuf | EFreeNative _ PtrStackBuf => true
  | _ => false
  end.

Definition PathArg_eqb (a b : PathArg) : bool :=
  match a, b with
  | ImagesDir, ImagesDir | LogFile, LogFile | WorkDir, WorkDir => true
  | _, _ => false
  end.

(** The UTF-8 copy of string [k] made on the heap, and its release. *)
Definition is_copy_to_heap (k : PathArg) (ev : Event) : bool :=
  match ev with
  | ECopyStringToUTF8 k' PtrHeap => PathArg_eqb k k'
  | _ => false
  end.

Definition is_free_of_copy (k : PathArg) (ev : Event) : bool :=
  match ev with
  | EFreeUTF8 k' PtrHeap => PathArg_eqb k k'
  | _ => false
  end.

(** More worlds. *)

(** No memory for the UTF-8 copy of the image directory string. *)
Definition images_dir_out_of_memory : World :=
  mkWorld true
    (fun k => match k with
              | ImagesDir => mkStringEnv PtrNull 0 false 0
              | _ => short_path
              end)
    (open_result all_succeed) (fun _ => 0)
    0 true 0 true (fun _ => 0) (fun _ => 0) true.

(** [open] of the work directory fails with EACCES. *)
Definition no_work_dir : World :=
  mkWorld true (fun _ => short_path)
    (fun v => match v with DirFD => 5 | WorkDirFD => -1 end) (fun _ => 13)
    0 true 0 true (fun _ => 0) (fun _ => 0) true.

(** [criu_init_opts] fails. *)
Definition init_fails : World :=
  mkWorld true (fun _ => short_path) (open_result all_succeed) (fun _ => 0)
    (-1) true 0 true (fun _ => 0) (fun _ => 0) true.

(** The checkpoint hooks fail. *)
Definition checkpoint_hooks_fail : World :=
  mkWorld true (fun _ => short_path) (open_result all_succeed) (fun _ => 0)
    0 false 0 true (fun _ => 0) (fun _ => 0) true.

(** Every path lives on the heap, as copy and as native string. *)
Definition long_paths : World :=
  mkWorld true (fun _ => long_path) (open_result all_succeed) (fun _ => 0)
    0 true 0 true (fun _ => 0) (fun _ => 0) true.

Definition is_create_local_ref (ev : Event) : bool :=
  match ev with ECreateLocalRef _ => true | _ => false end.

(** The error a failed call leaves pending: lines 138, 164, 255, 270,
    278 and 307. *)
Definition error_of_call (w : World) (ev : Event) : option Exception :=
  match ev with
  | ECopyStringToUTF8 _ PtrNull | EAllocateNative _ _ PtrNull =>
      Some NativeOutOfMemoryError
  | EOpen v fd =>
      if fd <? 0
      then Some (InternalError J9NLS_JCL_CRIU_FAILED_TO_OPEN_DIR (open_errno w v))
      else None
  | ECriuInitOpts rc =>
      if rc =? 0 then None else Some (InternalError J9NLS_JCL_CRIU_INIT_FAILED rc)
  | ECriuDump rc =>
      if rc <? 0 then Some (InternalError J9NLS_JCL_CRIU_DUMP_FAILED rc) else None
  | _ => None
  end.

Definition has_error (w : World) (ev : Event) : bool :=
  match error_of_call w ev with Some _ => true | None => false end.

(** Closing the work directory descriptor fails with EIO, closing the
    image directory descriptor with EBADF; no local reference can be
    made. *)
Definition closes_fail_no_local_ref : World :=
  mkWorld true (fun _ => short_path) (open_result all_succeed) (fun _ => 0)
    0 true 0 true
    (fun _ => -1) (fun v => match v with DirFD => 9 | WorkDirFD => 5 end) false.

Definition both_closes_fail : World :=
  mkWorld true (fun _ => short_path) (open_result all_succeed) (fun _ => 0)
    0 true 0 true
    (fun _ => -1) (fun v => match v with DirFD => 9 | WorkDirFD => 5 end) true.

Definition is_successful_dump (ev : Event) : bool :=
  match ev with ECriuDump rc => 0 <=? rc | _ => false end.

Definition is_failed_criu_call (ev : Event) : bool :=
  match ev with
  | ECriuInitOpts rc => negb (rc =? 0)
  | ECriuDump rc => rc <? 0
  | _ => false
  end.

(** The [j9mem_free_memory] call that follows a failed allocation: lines
    188-190 for the UTF-8 copy, 344-354 for a native string. *)
Definition free_after_failed_allocation (ev : Event) : option Event :=
  match ev with
  | ECopyStringToUTF8 k PtrNull => Some (EFreeUTF8 k PtrNull)
  | EAllocateNative k _ PtrNull => Some (EFreeNative k PtrNull)
  | _ => None
  end.

(** No memory for the native string of a long image directory path. *)
Definition long_path_out_of_memory : StringEnv := mkStringEnv PtrHeap 300 false 300.

Definition images_dir_allocation_fails : World :=
  mkWorld true
    (fun k => match k with
              | ImagesDir => long_path_out_of_memory
              | _ => short_path
              end)
    (open_result all_succeed) (fun _ => 0)
    0 true 0 true (fun _ => 0) (fun _ => 0) true.

Definition is_allocation_or_store (ev : Event) : bool :=
  match ev with EAllocateNative _ _ _ | EStoreNul _ _ => true | _ => false end.

(** A path whose native form has 255 bytes: with the terminator it fills
    the stack buffer. *)
Definition longest_short_path : StringEnv := mkStringEnv PtrStackBuf 255 true 255.

(** [omrstr_convert] reports the error -2 on a heap copy. *)
Definition unconvertible_heap_path : StringEnv := mkStringEnv PtrHeap (-2) true (-2).

(** The JNI cannot make a global reference to the second class. *)
Definition jni_out_of_global_refs : JNIWorld :=
  mkJNIWorld true 0 (fun _ => 11)
    (fun obj => 0) (fun _ _ _ => 21) (fun _ _ _ => 31).

(** A VM whose CRIU slots were filled by an earlier call. *)
Definition filled_vm : J9JavaVM := mkJavaVM 111 111 21 21 21 21 21 21 31.

(** * Proofs *)

(** ** Three runs *)

Example run_success :
  checkpoint empty_vm images_only all_succeed =
  (mkResult SUCCESS None,
   mkThread empty_vm None
     [EEnterVM; EAssertNotNull true;
      ECopyStringToUTF8 ImagesDir PtrStackBuf; EStoreNul ImagesDir 8;
      EOpen DirFD 5; ECriuInitOpts 0;
      ECriuSetImagesDirFd 5; ECriuSetShellJob false; ECriuSetLeaveRunning false;
      ECriuSetExtUnixSk false; ECriuSetFileLocks false;
      EAcquireExclusiveVMAccess; EJvmCheckpointHooks true; ECriuDump 0;
      EJvmRestoreHooks true; EReleaseExclusiveVMAccess;
      EClose WorkDirFD 0 0; EClose DirFD 5 0; EExitVM]).
Proof. reflexivity. Qed.

Example run_no_images_dir :
  checkpoint empty_vm images_only no_images_dir =
  (mkResult INVALID_ARGUMENTS
     (Some (InternalError J9NLS_JCL_CRIU_FAILED_TO_OPEN_DIR 2)),
   mkThread empty_vm None
     [EEnterVM; EAssertNotNull true;
      ECopyStringToUTF8 ImagesDir PtrStackBuf; EStoreNul ImagesDir 8;
      EOpen DirFD (-1); ECreateLocalRef true; EExitVM]).
Proof. reflexivity. Qed.

Example run_dump_fails_close_fails :
  checkpoint empty_vm images_only dump_fails_close_fails =
  (mkResult JVM_CHECKPOINT_FAILURE
     (Some (InternalError J9NLS_JCL_CRIU_FAILED_TO_CLOSE_DIR 5)),
   mkThread empty_vm None
     [EEnterVM; EAssertNotNull true;
      ECopyStringToUTF8 ImagesDir PtrStackBuf; EStoreNul ImagesDir 8;
      EOpen DirFD 5; ECriuInitOpts 0;
      ECriuSetImagesDirFd 5; ECriuSetShellJob false; ECriuSetLeaveRunning false;
      ECriuSetExtUnixSk false; ECriuSetFileLocks false;
      EAcquireExclusiveVMAccess; EJvmCheckpointHooks true; ECriuDump (-1);
      EReleaseExclusiveVMAccess;
      EClose WorkDirFD 0 0; EClose DirFD 5 (-1); ECreateLocalRef true; EExitVM]).
Proof. reflexivity. Qed.

(** ** Unsigned sizes are never negative *)

Lemma to_UDATA_range z : 0 <= to_UDATA z < 2 ^ UDATA_BITS.
Proof. unfold to_UDATA. apply Z.mod_pos_bound. reflexivity. Qed.

Lemma to_UDATA_ltb_0 z : (to_UDATA z <? 0) = false.
Proof. apply Z.ltb_ge. apply to_UDATA_range. Qed.

(** ** Running [getNativeString] *)

(** Case analysis over the paths of [getNativeString]; the two tests of
    an unsigned size against 0 are rewritten away first. *)
Ltac gns_paths :=
  cbn -[to_UDATA Z.ltb Z.gtb];
  rewrite !to_UDATA_ltb_0;
  match goal with
  | |- context [match ?c with PtrNull => _ | _ => _ end] => destruct c
  end;
  cbn -[to_UDATA Z.ltb Z.gtb];
  repeat match goal with
  | |- context [if ?c then _ else _] => destruct c; cbn -[to_UDATA Z.ltb Z.gtb]
  end.

Lemma getNativeString_run k e rt th :
  runState (getNativeString k e PtrStackBuf rt) th =
  ((gns_ok e, gns_chars e, if gns_ok e then rt else JVM_CHECKPOINT_FAILURE),
   mkThread (javaVM th)
     (if gns_ok e then currentException th else Some NativeOutOfMemoryError)
     (events th ++ gns_events k e)).
Proof.
  unfold gns_ok, gns_chars, gns_events, gns_run, getNativeString, getNativeString_convert.
  destruct e as [c s a r]; destruct th as [vm x evs].
  gns_paths; rewrite <- ?app_assoc; reflexivity.
Qed.

Lemma gns_events_helper k e ev :
  In ev (gns_events k e) -> is_helper_event ev = true.
Proof.
  unfold gns_events, gns_run, getNativeString, getNativeString_convert.
  destruct e as [c s a r].
  gns_paths; intuition (subst; reflexivity).
Qed.

(** The result type [getNativeString] leaves in [*resultType]: the
    caller's on success, JVM_CHECKPOINT_FAILURE on failure.  The two
    INVALID_ARGUMENTS branches are dead, since the size they test is
    unsigned. *)
Lemma getNativeString_resultType k e p rt th :
  snd (fst (runState (getNativeString k e p rt) th)) =
    if fst (fst (fst (runState (getNativeString k e p rt) th)))
    then rt else JVM_CHECKPOINT_FAILURE.
Proof.
  unfold getNativeString, getNativeString_convert.
  destruct e as [c s a r]; destruct th as [vm x evs].
  gns_paths; reflexivity.
Qed.

(** ** Running the unwinding code *)

Lemma goto_run w lbl l th :
  let r := runState (goto w lbl l) th in
  resultType (fst r) = unwound_resultType w lbl l /\
  currentExceptionLocalRef (fst r) = unwound_throwable w lbl l (currentException th) /\
  events (snd r) = events th ++ unwind_events w lbl l (currentException th).
Proof.
  destruct th as [vm pending evs], l as [ref rt dfd wfd dch lch wch src after].
  unfold unwound_resultType, unwound_throwable, unwind_events, pending_after_closes,
    closes_fail, tail_events, free_native, late_failure, close_exception, close_fails.
  destruct lbl; cbn -[Z.eqb];
    destruct (close_result w WorkDirFD =? 0), (close_result w DirFD =? 0);
    cbn -[Z.eqb];
    destruct wch, lch, dch, pending, (j9jni_createLocalRef w); cbn -[Z.eqb];
    rewrite <- ?app_assoc; repeat split; reflexivity.
Qed.

(** ** Running the body *)

(** Symbolic execution of the body, one decision at a time, in the
    hypothesis that names its result. *)
Ltac body_step H :=
  match type of H with
  | context [runState (getNativeString _ _ PtrStackBuf _) _] =>
      rewrite getNativeString_run in H
  | context [match ?x with _ => _ end] =>
      lazymatch x with
      | runState (if negb ?c then _ else _) _ => destruct c eqn:?
      | runState (if ?c then _ else _) _ => destruct c eqn:?
      | runState (match ?y with _ => _ end) _ => destruct y eqn:?
      | runState _ _ => fail
      | negb ?y => destruct y eqn:?
      | _ => destruct x eqn:?
      end
  end;
  cbn -[getNativeString app Z.ltb Z.eqb Z.gtb] in H.

Lemma checkpoint_body_run vm rq w :
  runState (checkpoint_body rq w initial_locals) (on_entry vm) = body_result vm rq w.
Proof.
  unfold body_result, open_imagesDir_result, open_workDir_result, configure_result,
    exclusive_result, configure_events, rt_after_string.
  remember (runState (checkpoint_body rq w initial_locals) (on_entry vm)) as b eqn:Hb.
  unfold checkpoint_body, open_imagesDir, open_workDir, configure, exclusive_section in Hb.
  cbn -[getNativeString app Z.ltb Z.eqb Z.gtb] in Hb.
  repeat body_step Hb.
  all: subst b; cbn -[app Z.ltb Z.eqb Z.gtb gns_events].
  all: rewrite <- ?app_assoc; reflexivity.
Qed.

(** ** A whole invocation *)

(** Gate closed: nothing runs. *)
Lemma checkpoint_not_allowed vm rq w :
  vm_isCheckpointAllowed w = false ->
  checkpoint vm rq w = (mkResult UNSUPPORTED_OPERATION None, on_entry vm).
Proof.
  intros Ha. unfold checkpoint,
    Java_org_eclipse_openj9_criu_CRIUSupport_checkpointJVMImpl.
  rewrite Ha. reflexivity.
Qed.

(** Gate open: the body, then the unwinding from the label the body left
    at. *)
Lemma checkpoint_allowed vm rq w :
  vm_isCheckpointAllowed w = true ->
  let b := body_result vm rq w in
  outcome vm rq w = unwound_resultType w (fst (fst b)) (snd (fst b)) /\
  trace vm rq w =
    events (snd b) ++ unwind_events w (fst (fst b)) (snd (fst b)) (currentException (snd b)).
Proof.
  intros Ha b. unfold outcome, trace, checkpoint,
    Java_org_eclipse_openj9_criu_CRIUSupport_checkpointJVMImpl.
  rewrite Ha. cbn -[checkpoint_body goto].
  rewrite checkpoint_body_run. fold b.
  destruct b as [[lbl l] th]. cbn -[goto].
  pose proof (goto_run w lbl l th) as H. cbn zeta in H.
  destruct (runState (goto w lbl l) th) as [l' th'].
  cbn in *. tauto.
Qed.

Lemma locals_before_release_allowed vm rq w :
  vm_isCheckpointAllowed w = true ->
  locals_before_release vm rq w = snd (fst (body_result vm rq w)).
Proof.
  intros Ha. unfold locals_before_release.
  rewrite Ha, checkpoint_body_run. reflexivity.
Qed.

Lemma locals_before_release_not_allowed vm rq w :
  vm_isCheckpointAllowed w = false ->
  locals_before_release vm rq w = initial_locals.
Proof. intros Ha. unfold locals_before_release. now rewrite Ha. Qed.

(** ** Proof automation *)

Ltac simpl_run :=
  unfold unwound_resultType, unwound_throwable, closes_fail, unwind_events in *;
  cbn -[In app filter existsb forallb flat_map Z.ltb Z.eqb Z.gtb free_native
        tail_events gns_events gns_ok gns_chars configure_events close_fails
        late_failure] in *.

Ltac summary_step H :=
  match type of H with
  | context [match ?x with _ => _ end] =>
      lazymatch x with
      | negb ?y => destruct y eqn:?
      | _ => destruct x eqn:?
      end
  end;
  cbn -[app Z.ltb Z.eqb Z.gtb gns_events gns_ok gns_chars configure_events] in H.

(** Start of a proof about an invocation: case analysis on the gate, then
    on the path the body takes. *)
Ltac start_run vm rq w :=
  let Ha := fresh "Ha" in
  let Ho := fresh "Ho" in
  let Ht := fresh "Ht" in
  let b := fresh "b" in
  let Hb := fresh "Hb" in
  destruct (vm_isCheckpointAllowed w) eqn:Ha;
  [ destruct (checkpoint_allowed vm rq w Ha) as [Ho Ht];
    rewrite ?Ho, ?Ht, ?(locals_before_release_allowed vm rq w Ha) in *;
    clear Ho Ht;
    remember (body_result vm rq w) as b eqn:Hb;
    unfold body_result, open_imagesDir_result, open_workDir_result, configure_result,
      exclusive_result, rt_after_string in Hb;
    repeat summary_step Hb;
    subst b; simpl_run
  | unfold outcome, trace in *;
    rewrite ?(checkpoint_not_allowed vm rq w Ha),
      ?(locals_before_release_not_allowed vm rq w Ha) in *;
    simpl_run ].

(** *** Membership in a trace *)

Lemma in_free_native ev k p : In ev (free_native k p) -> ev = EFreeNative k p.
Proof. unfold free_native. destruct p; cbn; intuition congruence. Qed.

Lemma in_tail_events w pending ev :
  In ev (tail_events w pending) ->
  ev = ECreateLocalRef (j9jni_createLocalRef w) \/ ev = EExitVM.
Proof. unfold tail_events. destruct pending; cbn; intuition congruence. Qed.

Lemma in_configure_events rq l ev :
  In ev (configure_events rq l) -> is_configure_event ev = true.
Proof.
  unfold configure_events.
  destruct (logLevel rq >? 0), (logFile rq), (workDir rq); cbn;
    intuition (subst; reflexivity).
Qed.

Ltac in_inv H :=
  repeat match type of H with
  | In _ (_ ++ _) => apply in_app_or in H; destruct H as [H|H]
  | In _ (_ :: _) => destruct H as [H|H]
  | In _ [] => destruct H
  | In _ (gns_events _ _) => apply gns_events_helper in H
  | In _ (configure_events _ _) => apply in_configure_events in H
  | In _ (free_native _ _) => apply in_free_native in H
  | In _ (tail_events _ _) => apply in_tail_events in H; destruct H as [H|H]
  end.

Ltac in_concrete :=
  repeat match goal with
  | H : In _ (_ :: _) |- _ => destruct H as [H|H]
  | H : In _ [] |- _ => destruct H
  end;
  try discriminate.

(** *** Selections of a trace

    A boolean selection of events commutes with the way a trace is put
    together, and skips the calls it does not select. *)

Lemma filter_none {A} (f : A -> bool) (l : list A) :
  (forall x, In x l -> f x = false) -> filter f l = [].
Proof.
  induction l as [|x l IH]; cbn; intros H; [reflexivity|].
  rewrite (H x (or_introl eq_refl)). apply IH. intros y Hy. apply H. now right.
Qed.

Lemma filter_gns (f : Event -> bool) k e :
  (forall ev, is_helper_event ev = true -> f ev = false) ->
  filter f (gns_events k e) = [].
Proof.
  intros Hf. apply filter_none. intros ev Hev. apply Hf.
  exact (gns_events_helper k e ev Hev).
Qed.

Lemma filter_configure_events (f : Event -> bool) rq l :
  (forall ev, is_configure_event ev = true -> f ev = false) ->
  filter f (configure_events rq l) = [].
Proof.
  intros Hf. apply filter_none. intros ev Hev. apply Hf.
  exact (in_configure_events rq l ev Hev).
Qed.

Lemma filter_free_native (f : Event -> bool) k p :
  filter f (free_native k p) = if f (EFreeNative k p) then free_native k p else [].
Proof. unfold free_native. destruct p; cbn; destruct (f _); reflexivity. Qed.

Lemma filter_tail_events (f : Event -> bool) w pending :
  f (ECreateLocalRef (j9jni_createLocalRef w)) = false ->
  f EExitVM = false ->
  filter f (tail_events w pending) = [].
Proof.
  intros H1 H2. unfold tail_events. destruct pending; cbn; rewrite ?H1, ?H2; reflexivity.
Qed.

Ltac skipped := intros []; cbn; congruence.

Ltac norm_filter :=
  rewrite ?filter_app in *;
  rewrite ?filter_gns in * by skipped;
  rewrite ?filter_configure_events in * by skipped;
  rewrite ?filter_free_native in *;
  rewrite ?filter_tail_events in * by reflexivity;
  cbn -[In Z.ltb Z.eqb Z.gtb free_native tail_events gns_events gns_ok gns_chars
        configure_events close_fails late_failure] in *.

Lemma in_filter {A} (f : A -> bool) (x : A) (l : list A) :
  In x l -> f x = true -> In x (filter f l).
Proof. intros H1 H2. apply filter_In. now split. Qed.

Lemma not_in_filter {A} (f : A -> bool) (x : A) (l : list A) :
  f x = true -> filter f l = [] -> ~ In x l.
Proof. intros H1 H2 H. apply (in_filter f) in H; [|exact H1]. now rewrite H2 in H. Qed.

Lemma existsb_filter {A} (f : A -> bool) (l : list A) :
  existsb f l = match filter f l with [] => false | _ :: _ => true end.
Proof.
  induction l as [|x l IH]; cbn; [reflexivity|].
  destruct (f x); cbn; [reflexivity|exact IH].
Qed.

Lemma forallb_free_native k p : forallb is_handle_release (free_native k p) = true.
Proof. destruct p; reflexivity. Qed.

Lemma filter_filter_sub {A} (f g : A -> bool) (l : list A) :
  (forall x, g x = true -> f x = true) -> filter g (filter f l) = filter g l.
Proof.
  intros Hsub. induction l as [|x l IH]; cbn; [reflexivity|].
  destruct (f x) eqn:Ef; cbn; rewrite IH; [reflexivity|].
  destruct (g x) eqn:Eg; [|reflexivity].
  rewrite (Hsub x Eg) in Ef. discriminate Ef.
Qed.

Lemma filter_forallb_none {A} (g h : A -> bool) (l : list A) :
  forallb h l = true -> (forall x, h x = true -> g x = false) -> filter g l = [].
Proof.
  intros Hall Hgh. apply filter_none. intros x Hx. apply Hgh.
  rewrite forallb_forall in Hall. now apply Hall.
Qed.

(** A selection that reads "acquire, release, then handle releases only"
    says of the whole trace: one acquire, one release, the release after
    the acquire, and every handle release after the release. *)
Lemma acquire_release_then_handles (tr rest : list Event) :
  filter is_exclusive_or_handle_release tr
    = EAcquireExclusiveVMAccess :: EReleaseExclusiveVMAccess :: rest ->
  forallb is_handle_release rest = true ->
  List.length (filter is_acquire_exclusive tr) = 1%nat /\
  List.length (filter is_release_exclusive tr) = 1%nat /\
  (forall tr1 tr2,
     tr = tr1 ++ EReleaseExclusiveVMAccess :: tr2 ->
     In EAcquireExclusiveVMAccess tr1) /\
  (forall tr1 ev tr2,
     tr = tr1 ++ ev :: tr2 -> is_handle_release ev = true ->
     In EReleaseExclusiveVMAccess tr1).
Proof.
  intros Hsel Hrest. repeat split.
  - rewrite <- (filter_filter_sub is_exclusive_or_handle_release) by (intros []; cbn; congruence).
    rewrite Hsel. cbn.
    rewrite (filter_forallb_none is_acquire_exclusive is_handle_release rest Hrest)
      by (intros []; cbn; congruence).
    reflexivity.
  - rewrite <- (filter_filter_sub is_exclusive_or_handle_release) by (intros []; cbn; congruence).
    rewrite Hsel. cbn.
    rewrite (filter_forallb_none is_release_exclusive is_handle_release rest Hrest)
      by (intros []; cbn; congruence).
    reflexivity.
  - intros tr1 tr2 ->. rewrite filter_app in Hsel. cbn in Hsel.
    destruct (filter is_exclusive_or_handle_release tr1) as [|x sel1] eqn:E1;
      cbn in Hsel; [discriminate Hsel|].
    injection Hsel as -> _.
    apply (filter_In is_exclusive_or_handle_release). rewrite E1. now left.
  - intros tr1 ev tr2 -> Hev. rewrite filter_app in Hsel. cbn in Hsel.
    replace (is_exclusive_or_handle_release ev) with true in Hsel
      by (destruct ev; try discriminate Hev; reflexivity).
    destruct (filter is_exclusive_or_handle_release tr1) as [|x [|y sel1]] eqn:E1;
      cbn in Hsel.
    + injection Hsel as -> _. discriminate Hev.
    + injection Hsel as _ -> _. discriminate Hev.
    + injection Hsel as _ -> _.
      apply (filter_In is_exclusive_or_handle_release). rewrite E1. right. now left.
Qed.

(** *** Acquisitions and releases in a trace *)

Lemma flat_map_none {A B} (f : A -> list B) (l : list A) :
  (forall x, In x l -> f x = []) -> flat_map f l = [].
Proof.
  induction l as [|x l IH]; cbn; intros H; [reflexivity|].
  rewrite (H x (or_introl eq_refl)). apply IH. intros y Hy. apply H. now right.
Qed.

Lemma released_gns k e : flat_map releases (gns_events k e) = [].
Proof.
  apply flat_map_none. intros ev Hev. apply gns_events_helper in Hev.
  destruct ev; try discriminate Hev; reflexivity.
Qed.

Lemma acquired_gns k e :
  flat_map acquires (gns_events k e) = if is_heap (gns_chars e) then [HNative k] else [].
Proof.
  unfold gns_events, gns_chars, gns_run, getNativeString, getNativeString_convert.
  destruct e as [c s a r].
  gns_paths; reflexivity.
Qed.

Lemma released_configure_events rq l : flat_map releases (configure_events rq l) = [].
Proof.
  apply flat_map_none. intros ev Hev. apply in_configure_events in Hev.
  destruct ev; try discriminate Hev; reflexivity.
Qed.

Lemma acquired_configure_events rq l : flat_map acquires (configure_events rq l) = [].
Proof.
  apply flat_map_none. intros ev Hev. apply in_configure_events in Hev.
  destruct ev; try discriminate Hev; reflexivity.
Qed.

Lemma released_free_native k p :
  flat_map releases (free_native k p) = if is_heap p then [HNative k] else [].
Proof. destruct p; reflexivity. Qed.

Lemma acquired_free_native k p : flat_map acquires (free_native k p) = [].
Proof. destruct p; reflexivity. Qed.

Lemma released_tail_events w pending : flat_map releases (tail_events w pending) = [].
Proof. destruct pending; reflexivity. Qed.

Lemma acquired_tail_events w pending : flat_map acquires (tail_events w pending) = [].
Proof. destruct pending; reflexivity. Qed.

Ltac norm_handles :=
  unfold acquired, released in *;
  rewrite ?flat_map_app in *;
  rewrite ?released_gns, ?acquired_gns, ?released_configure_events,
    ?acquired_configure_events, ?released_free_native, ?acquired_free_native,
    ?released_tail_events, ?acquired_tail_events in *;
  cbn -[In Z.ltb Z.eqb Z.gtb gns_ok gns_chars is_heap subseqb filter] in *;
  repeat match goal with
  | H : ?c = _ |- context [if ?c then _ else _] => rewrite H
  end;
  cbn -[In Z.ltb Z.eqb Z.gtb gns_ok gns_chars is_heap subseqb filter] in *.

Ltac split_heap :=
  repeat match goal with
  | |- context [is_heap (gns_chars ?e)] => destruct (is_heap (gns_chars e))
  end.

(** ** The permission gate *)

(** C4.  When the VM does not allow a checkpoint, [checkpointJVMImpl]
    returns UNSUPPORTED_OPERATION with no throwable, makes no call at all
    (the log stays empty: nothing is opened, converted or configured) and
    leaves the thread as it found it. *)
Theorem not_allowed_is_unsupported vm rq w :
  vm_isCheckpointAllowed w = false ->
  outcome vm rq w = UNSUPPORTED_OPERATION /\
  trace vm rq w = [] /\
  checkpoint vm rq w = (mkResult UNSUPPORTED_OPERATION None, on_entry vm).
Proof.
  intros Ha. unfold outcome, trace.
  rewrite (checkpoint_not_allowed vm rq w Ha). repeat split.
Qed.

(** C4 on a request with every option set, the gate closed. *)
Lemma not_allowed_is_unsupported_witness :
  outcome empty_vm with_workDir gate_closed = UNSUPPORTED_OPERATION /\
  trace empty_vm with_workDir gate_closed = [] /\
  checkpoint empty_vm with_workDir gate_closed =
    (mkResult UNSUPPORTED_OPERATION None, on_entry empty_vm).
Proof.
  apply (not_allowed_is_unsupported empty_vm with_workDir gate_closed).
  reflexivity.
Defined.

(** ** Opening the image directory *)

(** C5.  In every invocation in which [open] of the image directory
    fails (returns a negative descriptor), the outcome is
    INVALID_ARGUMENTS and exclusive VM access is never acquired. *)
Theorem unopenable_image_directory vm rq w fd :
  In (EOpen DirFD fd) (trace vm rq w) -> fd < 0 ->
  outcome vm rq w = INVALID_ARGUMENTS /\
  ~ In EAcquireExclusiveVMAccess (trace vm rq w).
Proof.
  intros Hin Hneg.
  apply (in_filter (is_open_of DirFD)) in Hin; [|reflexivity].
  enough (outcome vm rq w = INVALID_ARGUMENTS /\
          filter is_acquire_exclusive (trace vm rq w) = []) as [H1 H2].
  { split; [exact H1|]. now apply (not_in_filter is_acquire_exclusive). }
  start_run vm rq w; norm_filter; try contradiction;
    destruct Hin as [Hin|[]]; injection Hin as <-; try lia;
    split; reflexivity.
Qed.

(** C5 on a run where [open] of the image directory returns -1. *)
Lemma unopenable_image_directory_witness :
  outcome empty_vm images_only no_images_dir = INVALID_ARGUMENTS /\
  ~ In EAcquireExclusiveVMAccess (trace empty_vm images_only no_images_dir).
Proof.
  apply (unopenable_image_directory empty_vm images_only no_images_dir (-1)).
  - vm_compute. repeat first [left; reflexivity | right].
  - lia.
Defined.

(** ** Failing closes *)

(** How the unwinding code changes the result type: not at all when both
    closes succeed, and to the late failure kind when one fails, whatever
    the result type was. *)
Lemma outcome_after_unwinding vm rq w :
  outcome vm rq w =
    if some_close_failed (trace vm rq w)
    then late_failure (locals_before_release vm rq w)
    else resultType (locals_before_release vm rq w).
Proof.
  unfold some_close_failed. rewrite existsb_filter.
  start_run vm rq w; norm_filter; try reflexivity;
    unfold close_fails;
    destruct (close_result w DirFD =? 0); try reflexivity;
    destruct (close_result w WorkDirFD =? 0); reflexivity.
Qed.

(** C2, counterexample.  The dump fails (SYSTEM_CHECKPOINT_FAILURE), then
    closing the image directory fails: the outcome is
    JVM_CHECKPOINT_FAILURE, so the earlier classification was replaced
    outside the after-checkpoint branch. *)
Lemma close_failure_replaces_dump_failure :
  ~ release_failure_keeps_earlier_failure empty_vm images_only dump_fails_close_fails.
Proof.
  unfold release_failure_keeps_earlier_failure. vm_compute. intros H.
  assert (E : JVM_CHECKPOINT_FAILURE = SYSTEM_CHECKPOINT_FAILURE).
  { apply H; [reflexivity|discriminate|reflexivity]. }
  discriminate E.
Qed.

(** C2, amended.  The unwinding code leaves the result type alone when
    both closes succeed.  When a close fails it replaces the result type,
    whatever it was (SUCCESS or an earlier failure), by JVM_RESTORE_FAILURE
    if the dump had succeeded and by JVM_CHECKPOINT_FAILURE otherwise. *)
Theorem close_failure_reclassifies vm rq w :
  outcome vm rq w =
    if some_close_failed (trace vm rq w)
    then (if isAfterCheckpoint (locals_before_release vm rq w)
          then JVM_RESTORE_FAILURE else JVM_CHECKPOINT_FAILURE)
    else resultType (locals_before_release vm rq w).
Proof. exact (outcome_after_unwinding vm rq w). Qed.

(** ** The dump and the restore hooks *)

(** C6.  In every invocation in which [criu_dump] returns a non-negative
    status, the restore hooks run, once and right after the dump (of the
    dump and restore-hook calls the log holds exactly these two, in this
    order), and when they fail the outcome is JVM_RESTORE_FAILURE. *)
Theorem restore_hooks_after_dump vm rq w rc :
  In (ECriuDump rc) (trace vm rq w) -> 0 <= rc ->
  exists ok,
    filter is_dump_or_restore_hooks (trace vm rq w)
      = [ECriuDump rc; EJvmRestoreHooks ok] /\
    In (EJvmRestoreHooks ok) (trace vm rq w) /\
    (ok = false -> outcome vm rq w = JVM_RESTORE_FAILURE).
Proof.
  intros Hin Hrc.
  apply (in_filter is_dump_or_restore_hooks) in Hin; [|reflexivity].
  enough (exists ok,
    filter is_dump_or_restore_hooks (trace vm rq w)
      = [ECriuDump rc; EJvmRestoreHooks ok] /\
    (ok = false -> outcome vm rq w = JVM_RESTORE_FAILURE)) as (ok & H1 & H2).
  { exists ok. repeat split; [exact H1| |exact H2].
    apply (filter_In is_dump_or_restore_hooks). rewrite H1. cbn. auto. }
  start_run vm rq w; norm_filter; in_concrete;
    match goal with H : ECriuDump _ = ECriuDump _ |- _ => injection H as <- end;
    try lia;
    (eexists; split; [reflexivity|]); intros Hok;
    unfold late_failure; cbn;
    destruct (close_fails w WorkDirFD), (close_fails w DirFD);
    first [reflexivity | discriminate Hok].
Qed.

(** C6 on a run where the dump returns 0 and the restore hooks fail. *)
Lemma restore_hooks_after_dump_witness :
  exists ok,
    filter is_dump_or_restore_hooks (trace empty_vm with_workDir restore_hooks_fail)
      = [ECriuDump 0; EJvmRestoreHooks ok] /\
    In (EJvmRestoreHooks ok) (trace empty_vm with_workDir restore_hooks_fail) /\
    (ok = false -> outcome empty_vm with_workDir restore_hooks_fail = JVM_RESTORE_FAILURE).
Proof.
  apply (restore_hooks_after_dump empty_vm with_workDir restore_hooks_fail 0).
  - vm_compute. repeat first [left; reflexivity | right].
  - lia.
Defined.

(** C7, counterexample.  [criu_dump] returns -1 and the close of the
    image directory fails afterwards: the outcome is
    JVM_CHECKPOINT_FAILURE. *)
Lemma failed_dump_then_failed_close :
  ~ negative_dump_is_system_failure empty_vm images_only dump_fails_close_fails.
Proof.
  intros H. specialize (H (-1)).
  assert (E : outcome empty_vm images_only dump_fails_close_fails
              = SYSTEM_CHECKPOINT_FAILURE).
  { apply H; [vm_compute; tauto|lia]. }
  vm_compute in E. discriminate E.
Qed.

(** C7, amended.  A negative status of [criu_dump] classifies the
    invocation as SYSTEM_CHECKPOINT_FAILURE, and that is the outcome
    unless a close fails during the unwinding, which turns it into
    JVM_CHECKPOINT_FAILURE.  Any non-negative status is treated as a
    successful dump: [isAfterCheckpoint] is set, the restore hooks run and
    the outcome is SUCCESS or JVM_RESTORE_FAILURE. *)
Theorem dump_status_classification vm rq w rc :
  In (ECriuDump rc) (trace vm rq w) ->
  (rc < 0 ->
     resultType (locals_before_release vm rq w) = SYSTEM_CHECKPOINT_FAILURE /\
     outcome vm rq w =
       if some_close_failed (trace vm rq w)
       then JVM_CHECKPOINT_FAILURE else SYSTEM_CHECKPOINT_FAILURE) /\
  (0 <= rc ->
     isAfterCheckpoint (locals_before_release vm rq w) = true /\
     In (EJvmRestoreHooks (jvmRestoreHooks w)) (trace vm rq w) /\
     (outcome vm rq w = SUCCESS \/ outcome vm rq w = JVM_RESTORE_FAILURE)).
Proof.
  intros Hin.
  rewrite (outcome_after_unwinding vm rq w).
  destruct (some_close_failed (trace vm rq w)).
  all: apply (in_filter is_dump_or_restore_hooks) in Hin; [|reflexivity].
  all: enough (
    (rc < 0 ->
       resultType (locals_before_release vm rq w) = SYSTEM_CHECKPOINT_FAILURE /\
       isAfterCheckpoint (locals_before_release vm rq w) = false) /\
    (0 <= rc ->
       isAfterCheckpoint (locals_before_release vm rq w) = true /\
       In (EJvmRestoreHooks (jvmRestoreHooks w))
         (filter is_dump_or_restore_hooks (trace vm rq w)) /\
       (resultType (locals_before_release vm rq w) = SUCCESS \/
        resultType (locals_before_release vm rq w) = JVM_RESTORE_FAILURE)))
    as [Hneg Hpos].
  1, 3: unfold late_failure; cbn; split;
    [ intros Hrc; destruct (Hneg Hrc) as [E1 E2]; rewrite ?E1, ?E2;
      split; reflexivity
    | intros Hrc; destruct (Hpos Hrc) as (Hafter & Hhooks & Hrt);
      rewrite ?Hafter; apply filter_In in Hhooks; tauto ].
  all: start_run vm rq w; norm_filter; in_concrete.
  all: match goal with H : ECriuDump _ = ECriuDump _ |- _ => injection H as <- end.
  all: split; intros Hrc; try lia; cbn; auto.
Qed.

(** C7, amended, on a run where the dump returns -1 and both closes
    succeed. *)
Lemma dump_status_classification_witness :
  (-1 < 0 ->
     resultType (locals_before_release empty_vm images_only dump_fails)
       = SYSTEM_CHECKPOINT_FAILURE /\
     outcome empty_vm images_only dump_fails =
       if some_close_failed (trace empty_vm images_only dump_fails)
       then JVM_CHECKPOINT_FAILURE else SYSTEM_CHECKPOINT_FAILURE) /\
  (0 <= -1 ->
     isAfterCheckpoint (locals_before_release empty_vm images_only dump_fails) = true /\
     In (EJvmRestoreHooks (jvmRestoreHooks dump_fails))
       (trace empty_vm images_only dump_fails) /\
     (outcome empty_vm images_only dump_fails = SUCCESS \/
      outcome empty_vm images_only dump_fails = JVM_RESTORE_FAILURE)).
Proof.
  apply (dump_status_classification empty_vm images_only dump_fails (-1)).
  vm_compute. repeat first [left; reflexivity | right].
Defined.

(** ** Exclusive VM access *)

(** In every invocation that acquires exclusive VM access, the log
    restricted to the exclusive-access calls and the handle releases
    ([close] and the frees of the native path strings) reads: one acquire,
    one release, then handle releases only. *)
Lemma exclusive_access_skeleton vm rq w :
  In EAcquireExclusiveVMAccess (trace vm rq w) ->
  exists rest,
    filter is_exclusive_or_handle_release (trace vm rq w)
      = EAcquireExclusiveVMAccess :: EReleaseExclusiveVMAccess :: rest /\
    forallb is_handle_release rest = true.
Proof.
  intros Hin.
  apply (in_filter is_exclusive_or_handle_release) in Hin; [|reflexivity].
  start_run vm rq w; norm_filter; in_inv Hin; try discriminate Hin;
    (eexists; split; [reflexivity|]);
    cbn [forallb is_handle_release andb];
    rewrite ?forallb_app, ?forallb_free_native; reflexivity.
Qed.

(** C3.  In every invocation that acquires exclusive VM access, the
    access is acquired exactly once and released exactly once, on
    whatever path the body left (failed checkpoint hooks, failed dump,
    failed restore hooks or success); the release comes after the
    acquire, and every release of a handle ([close], or a free of a
    native path string) comes after the release of exclusive access. *)
Theorem exclusive_access_released_before_handles vm rq w :
  In EAcquireExclusiveVMAccess (trace vm rq w) ->
  List.length (filter is_acquire_exclusive (trace vm rq w)) = 1%nat /\
  List.length (filter is_release_exclusive (trace vm rq w)) = 1%nat /\
  (forall tr1 tr2,
     trace vm rq w = tr1 ++ EReleaseExclusiveVMAccess :: tr2 ->
     In EAcquireExclusiveVMAccess tr1) /\
  (forall tr1 ev tr2,
     trace vm rq w = tr1 ++ ev :: tr2 -> is_handle_release ev = true ->
     In EReleaseExclusiveVMAccess tr1).
Proof.
  intros Hin.
  destruct (exclusive_access_skeleton vm rq w Hin) as (rest & Hsel & Hrest).
  exact (acquire_release_then_handles (trace vm rq w) rest Hsel Hrest).
Qed.

(** C3 on a run where the dump fails under exclusive access. *)
Lemma exclusive_access_released_before_handles_witness :
  List.length (filter is_acquire_exclusive (trace empty_vm with_workDir dump_fails))
    = 1%nat /\
  List.length (filter is_release_exclusive (trace empty_vm with_workDir dump_fails))
    = 1%nat /\
  (forall tr1 tr2,
     trace empty_vm with_workDir dump_fails
       = tr1 ++ EReleaseExclusiveVMAccess :: tr2 ->
     In EAcquireExclusiveVMAccess tr1) /\
  (forall tr1 ev tr2,
     trace empty_vm with_workDir dump_fails = tr1 ++ ev :: tr2 ->
     is_handle_release ev = true ->
     In EReleaseExclusiveVMAccess tr1).
Proof.
  apply (exclusive_access_released_before_handles empty_vm with_workDir dump_fails).
  vm_compute. repeat first [left; reflexivity | right].
Defined.

(** ** Acquisitions and releases of handles *)

(** C8, counterexample.  With a work directory whose path needs a heap
    buffer, the image directory descriptor is acquired before the work
    directory string, and closed before that string is freed. *)
Lemma image_descriptor_closed_before_workDir_string_freed :
  ~ released_in_reverse_order empty_vm with_workDir long_workDir.
Proof.
  intros H. specialize (H (HFd DirFD) (HNative WorkDir)).
  assert (E : precedesb (HNative WorkDir) (HFd DirFD)
                (released (trace empty_vm with_workDir long_workDir)) = true).
  { apply H; vm_compute; tauto. }
  vm_compute in E. discriminate E.
Qed.

(** What the two boolean order tests mean. *)
Lemma Handle_eqb_eq a b : Handle_eqb a b = true <-> a = b.
Proof. destruct a as [[]|[]], b as [[]|[]]; cbn; split; congruence. Qed.

Lemma precedesb_spec a b l :
  precedesb a b l = true <-> exists l1 l2 l3, l = l1 ++ a :: l2 ++ b :: l3.
Proof.
  induction l as [|x l IH]; cbn.
  - split; [discriminate|]. intros (l1 & l2 & l3 & H). destruct l1; discriminate H.
  - rewrite orb_true_iff, andb_true_iff, Handle_eqb_eq, IH. split.
    + intros [[-> Hb] | (l1 & l2 & l3 & ->)].
      * apply existsb_exists in Hb as (y & Hy & Ey).
        apply Handle_eqb_eq in Ey. subst y.
        apply in_split in Hy as (l2 & l3 & ->).
        exists [], l2, l3. reflexivity.
      * exists (x :: l1), l2, l3. reflexivity.
    + intros (l1 & l2 & l3 & H). destruct l1 as [|y l1]; cbn in H.
      * injection H as -> ->. left. split; [reflexivity|].
        apply existsb_exists. exists b. split.
        -- apply in_or_app. right. now left.
        -- now apply Handle_eqb_eq.
      * injection H as -> ->. right. exists l1, l2, l3. reflexivity.
Qed.

Lemma subseqb_existsb (f : Handle -> bool) s l :
  subseqb s l = true -> existsb f s = true -> existsb f l = true.
Proof.
  revert s. induction l as [|y l IH]; intros [|x s] Hsub Hex; cbn in *;
    try discriminate.
  destruct (Handle_eqb x y) eqn:Exy.
  - apply Handle_eqb_eq in Exy. subst y.
    apply orb_true_iff in Hex as [Hx|Hs].
    + now rewrite Hx.
    + rewrite (IH s Hsub Hs). apply orb_true_r.
  - rewrite (IH (x :: s) Hsub Hex). apply orb_true_r.
Qed.

(** A subsequence keeps the order of its elements. *)
Lemma subseqb_precedesb a b s l :
  subseqb s l = true -> precedesb a b s = true -> precedesb a b l = true.
Proof.
  revert s. induction l as [|y l IH]; intros [|x s] Hsub Hp; cbn in *;
    try discriminate.
  destruct (Handle_eqb x y) eqn:Exy.
  - apply Handle_eqb_eq in Exy. subst y.
    apply orb_true_iff in Hp as [Hhere|Hlater].
    + apply andb_true_iff in Hhere as [Hx Hb].
      rewrite Hx, (subseqb_existsb _ s l Hsub Hb). reflexivity.
    + rewrite (IH s Hsub Hlater). apply orb_true_r.
  - rewrite (IH (x :: s) Hsub Hp). apply orb_true_r.
Qed.

(** The handles released on a run are, in this order and each at most
    once, among: work directory descriptor, image directory descriptor,
    work directory string, log file string, image directory string; the
    handles acquired are, in this order, among: image directory string,
    log file string, image directory descriptor, work directory string,
    work directory descriptor. *)
Lemma releases_subsequence vm rq w :
  subseqb (released (trace vm rq w)) release_order = true /\
  subseqb (acquired (trace vm rq w)) acquisition_order = true.
Proof.
  start_run vm rq w; norm_handles; split_heap; split; reflexivity.
Qed.

(** C8, amended.  The releases always follow the order of the labels:
    work directory descriptor, image directory descriptor, work directory
    string, log file string, image directory string; and the
    acquisitions the order image directory string, log file string, image
    directory descriptor, work directory string, work directory
    descriptor.  Descriptors are thus released in reverse order of
    acquisition, and so are strings, but every descriptor is closed
    before any string is freed. *)
Theorem releases_follow_label_order vm rq w :
  subseqb (released (trace vm rq w)) release_order = true /\
  subseqb (acquired (trace vm rq w)) acquisition_order = true /\
  (forall a b,
     precedesb a b (released (trace vm rq w)) = true ->
     precedesb a b release_order = true) /\
  (forall a b,
     precedesb a b (acquired (trace vm rq w)) = true ->
     precedesb a b acquisition_order = true).
Proof.
  destruct (releases_subsequence vm rq w) as [Hrel Hacq].
  repeat split; try assumption; intros a b.
  - exact (subseqb_precedesb a b _ _ Hrel).
  - exact (subseqb_precedesb a b _ _ Hacq).
Qed.

(** What holds of C1: every handle is released as often as it was
    acquired, at most once, on every path; the slot of the work directory
    descriptor is the exception when no work directory was given. *)
Lemma handles_balanced vm rq w h :
  (h = HFd WorkDirFD -> workDir rq <> None) ->
  filter (Handle_eqb h) (released (trace vm rq w))
    = filter (Handle_eqb h) (acquired (trace vm rq w)) /\
  (List.length (filter (Handle_eqb h) (acquired (trace vm rq w))) <= 1)%nat.
Proof.
  intros Hh.
  start_run vm rq w; norm_handles; split_heap;
    destruct h as [[]|[]]; cbn; try (split; [reflexivity|lia]);
    exfalso; exact (Hh eq_refl eq_refl).
Qed.

(** Without a work directory, once [criu_init_opts] was called (so that
    the unwinding starts at [closeWorkDirFD] or above) [close] is called
    on the initial value 0 of [workDirFD], though no work directory was
    opened. *)
Lemma close_without_work_directory vm rq w rc :
  workDir rq = None ->
  In (ECriuInitOpts rc) (trace vm rq w) ->
  filter (is_open_of WorkDirFD) (trace vm rq w) = [] /\
  In (EClose WorkDirFD 0 (close_result w WorkDirFD)) (trace vm rq w).
Proof.
  intros Hwd Hin.
  apply (in_filter (fun ev => match ev with ECriuInitOpts _ => true | _ => false end))
    in Hin; [|reflexivity].
  enough (filter (is_open_of WorkDirFD) (trace vm rq w) = [] /\
          In (EClose WorkDirFD 0 (close_result w WorkDirFD))
            (filter is_handle_release (trace vm rq w))) as [H1 H2].
  { split; [exact H1|]. apply filter_In in H2. tauto. }
  start_run vm rq w; norm_filter; try contradiction; try congruence;
    split; try reflexivity; cbn; auto.
Qed.

(** C1, the failing run.  A request without work directory, every call
    succeeding: the only handle acquired is the image directory
    descriptor (5), yet [close] is also called on descriptor 0, the
    initial value of [workDirFD], which this invocation never opened. *)
Theorem close_of_unopened_work_directory :
  acquired (trace empty_vm images_only all_succeed) = [HFd DirFD] /\
  released (trace empty_vm images_only all_succeed) = [HFd WorkDirFD; HFd DirFD] /\
  filter is_handle_release (trace empty_vm images_only all_succeed)
    = [EClose WorkDirFD 0 0; EClose DirFD 5 0] /\
  filter (is_open_of WorkDirFD) (trace empty_vm images_only all_succeed) = [].
Proof. vm_compute. repeat split. Qed.

(** ** Conversion failures *)

(** What holds of C10: when an allocation fails while a path string is
    converted, the outcome is JVM_CHECKPOINT_FAILURE. *)
Lemma no_failed_allocation k e :
  gns_ok e = true -> filter is_failed_allocation (gns_events k e) = [].
Proof.
  unfold gns_ok, gns_events, gns_run, getNativeString, getNativeString_convert.
  destruct e as [c s a r].
  gns_paths; first [reflexivity | discriminate].
Qed.

Lemma out_of_memory_is_jvm_checkpoint_failure vm rq w :
  existsb is_failed_allocation (trace vm rq w) = true ->
  outcome vm rq w = JVM_CHECKPOINT_FAILURE.
Proof.
  rewrite existsb_filter.
  start_run vm rq w; norm_filter; intros H;
    rewrite ?no_failed_allocation in H by assumption;
    try discriminate H;
    unfold late_failure; cbn;
    destruct (close_fails w DirFD); reflexivity.
Qed.

(** C10, the failing run.  Whatever [omrstr_convert] returns,
    [getNativeString] reports success or JVM_CHECKPOINT_FAILURE, never
    INVALID_ARGUMENTS.  When the converter returns the error -1 for the
    image directory, the unsigned size is [2^64 - 1], the test [< 0]
    fails, the size plus one wraps to 0, the terminator is stored at
    index [2^64 - 1] and the helper returns TRUE; with all later calls
    succeeding the checkpoint ends in SUCCESS. *)
Theorem conversion_failure_is_not_invalid_arguments :
  (forall k e p rt th,
     snd (fst (runState (getNativeString k e p rt) th)) =
       if fst (fst (fst (runState (getNativeString k e p rt) th)))
       then rt else JVM_CHECKPOINT_FAILURE) /\
  runState (getNativeString ImagesDir unconvertible_path PtrStackBuf
              UNSUPPORTED_OPERATION) (on_entry empty_vm) =
    ((true, PtrStackBuf, UNSUPPORTED_OPERATION),
     mkThread empty_vm None
       [ECopyStringToUTF8 ImagesDir PtrStackBuf;
        EStoreNul ImagesDir (2 ^ 64 - 1)]) /\
  outcome empty_vm images_only unconvertible_images_dir = SUCCESS.
Proof.
  split; [exact getNativeString_resultType|].
  split; vm_compute; reflexivity.
Qed.

(** INVALID_ARGUMENTS only ever comes from a failed [open]. *)
Lemma invalid_arguments_only_from_open vm rq w :
  outcome vm rq w = INVALID_ARGUMENTS ->
  exists v, In (EOpen v (open_result w v)) (trace vm rq w) /\ open_result w v < 0.
Proof.
  intros Ho.
  enough (exists v,
    In (EOpen v (open_result w v))
       (filter (fun ev => match ev with EOpen _ _ => true | _ => false end)
          (trace vm rq w)) /\
    (open_result w v <? 0) = true) as (v & H1 & H2).
  { exists v. apply filter_In in H1. split; [tauto|lia]. }
  revert Ho. rewrite (outcome_after_unwinding vm rq w).
  destruct (some_close_failed (trace vm rq w)); unfold late_failure.
  all: start_run vm rq w; norm_filter; intros Ho; try discriminate Ho.
  all: repeat match goal with
       | H : context [if ?c then _ else _] |- _ => destruct c; try discriminate H
       end.
  all: first [ exists DirFD; split; [cbn; auto|assumption]
             | exists WorkDirFD; split; [cbn; auto|assumption] ].
Qed.

(** ** The queries *)

Lemma isCheckpointAllowed_run w th :
  runState (Java_org_eclipse_openj9_criu_CRIUSupport_isCheckpointAllowed w) th
    = (vm_isCheckpointAllowed w, th).
Proof.
  unfold Java_org_eclipse_openj9_criu_CRIUSupport_isCheckpointAllowed.
  destruct (vm_isCheckpointAllowed w); reflexivity.
Qed.

Lemma isCRIUSupportEnabledImpl_run j th :
  let r := runState (Java_org_eclipse_openj9_criu_CRIUSupport_isCRIUSupportEnabledImpl j) th in
  let typeClass := NewGlobalRef j (FindClass j CRIUResultType_class) in
  let resultClass := NewGlobalRef j (FindClass j CRIUResult_class) in
  fst r = vm_isCRIUSupportEnabled j && (jni_criu_init_opts j =? 0) /\
  javaVM (snd r) = cache_after j (javaVM th) /\
  currentException (snd r) =
    (if negb (typeClass =? NULL) && negb (resultClass =? NULL)
     then currentException th else Some NativeOutOfMemoryError) /\
  exists evs,
    events (snd r) =
      events th
      ++ (if vm_isCRIUSupportEnabled j then [ECriuInitOpts (jni_criu_init_opts j)] else [])
      ++ [EAssertNotNull (negb (FindClass j CRIUResultType_class =? NULL));
          ENewGlobalRef (FindClass j CRIUResultType_class) typeClass]
      ++ evs.
Proof.
  destruct th as [vm x evs]. destruct vm.
  unfold Java_org_eclipse_openj9_criu_CRIUSupport_isCRIUSupportEnabledImpl,
    setupJNIFieldIDs, setupStaticFieldID, Assert_CRIU_notNull, cache_after.
  cbn -[Z.eqb].
  destruct (vm_isCRIUSupportEnabled j); cbn -[Z.eqb];
    destruct (NewGlobalRef j (FindClass j CRIUResultType_class) =? NULL);
    destruct (NewGlobalRef j (FindClass j CRIUResult_class) =? NULL);
    cbn -[Z.eqb];
    (repeat split; try reflexivity);
    rewrite <- ?app_assoc; cbn -[Z.eqb]; eexists; reflexivity.
Qed.

(** C9, counterexample.  On a VM whose CRIU slots are still empty,
    [isCRIUSupportEnabledImpl] returns with the slots filled and the CRIU
    options initialised: the thread it leaves is not the one it found. *)
Lemma isCRIUSupportEnabledImpl_changes_state :
  ~ has_no_side_effect
      (Java_org_eclipse_openj9_criu_CRIUSupport_isCRIUSupportEnabledImpl jni_ready).
Proof.
  intros H. specialize (H (on_entry empty_vm)).
  vm_compute in H. discriminate H.
Qed.

(** C9, amended.  [isCheckpointAllowed] returns the VM's answer and has
    no side effect.  [isCRIUSupportEnabledImpl] returns whether CRIU
    support is enabled and [criu_init_opts] succeeded, and it has side
    effects: it calls [criu_init_opts] when support is enabled, and it
    always runs [setupJNIFieldIDs], which stores new global references
    and IDs in the VM's CRIU slots, or sets a pending
    OutOfMemoryError when a global reference could not be created. *)
Theorem query_effects :
  (forall w,
     has_no_side_effect (Java_org_eclipse_openj9_criu_CRIUSupport_isCheckpointAllowed w)) /\
  (forall w th,
     fst (runState (Java_org_eclipse_openj9_criu_CRIUSupport_isCheckpointAllowed w) th)
       = vm_isCheckpointAllowed w) /\
  (forall j th,
     let r := runState
                (Java_org_eclipse_openj9_criu_CRIUSupport_isCRIUSupportEnabledImpl j) th in
     let typeClass := NewGlobalRef j (FindClass j CRIUResultType_class) in
     let resultClass := NewGlobalRef j (FindClass j CRIUResult_class) in
     fst r = vm_isCRIUSupportEnabled j && (jni_criu_init_opts j =? 0) /\
     javaVM (snd r) = cache_after j (javaVM th) /\
     currentException (snd r) =
       (if negb (typeClass =? NULL) && negb (resultClass =? NULL)
        then currentException th else Some NativeOutOfMemoryError) /\
     exists evs,
       events (snd r) =
         events th
         ++ (if vm_isCRIUSupportEnabled j
             then [ECriuInitOpts (jni_criu_init_opts j)] else [])
         ++ [EAssertNotNull (negb (FindClass j CRIUResultType_class =? NULL));
             ENewGlobalRef (FindClass j CRIUResultType_class) typeClass]
         ++ evs).
Proof.
  split; [|split].
  - intros w th. now rewrite isCheckpointAllowed_run.
  - intros w th. now rewrite isCheckpointAllowed_run.
  - exact isCRIUSupportEnabledImpl_run.
Qed.

(** * More of the code *)

(** ** The thread at the return *)

Lemma goto_pending w lbl l th :
  currentException (snd (runState (goto w lbl l) th))
    = pending_at_return w lbl (currentException th).
Proof.
  destruct th as [vm pending evs], l as [ref rt dfd wfd dch lch wch src after].
  unfold pending_at_return, pending_after_closes, close_exception, close_fails.
  destruct lbl; cbn -[Z.eqb];
    destruct (close_result w WorkDirFD =? 0), (close_result w DirFD =? 0);
    cbn -[Z.eqb];
    destruct wch, lch, dch, pending, (j9jni_createLocalRef w); reflexivity.
Qed.

Lemma checkpoint_allowed_return vm rq w :
  vm_isCheckpointAllowed w = true ->
  let b := body_result vm rq w in
  result_throwable vm rq w
    = unwound_throwable w (fst (fst b)) (snd (fst b)) (currentException (snd b)) /\
  pending_on_return vm rq w
    = pending_at_return w (fst (fst b)) (currentException (snd b)).
Proof.
  intros Ha b. unfold result_throwable, pending_on_return, checkpoint,
    Java_org_eclipse_openj9_criu_CRIUSupport_checkpointJVMImpl.
  rewrite Ha. cbn -[checkpoint_body goto].
  rewrite checkpoint_body_run. fold b.
  destruct b as [[lbl l] th]. cbn -[goto].
  pose proof (goto_run w lbl l th) as H. cbn zeta in H.
  pose proof (goto_pending w lbl l th) as H'.
  destruct (runState (goto w lbl l) th) as [l' th'].
  cbn in *. tauto.
Qed.

Ltac simpl_return :=
  unfold unwound_resultType, unwound_throwable, pending_at_return,
    pending_after_closes, closes_fail, unwind_events in *;
  cbn -[In app filter existsb forallb flat_map Z.ltb Z.eqb Z.gtb free_native
        tail_events gns_events gns_ok gns_chars configure_events close_fails
        late_failure] in *.

(** Like [start_run], for statements that also speak of the throwable or
    of the exception left pending. *)
Ltac start_return vm rq w :=
  let Ha := fresh "Ha" in
  let Ho := fresh "Ho" in
  let Ht := fresh "Ht" in
  let Hx := fresh "Hx" in
  let Hp := fresh "Hp" in
  let b := fresh "b" in
  let Hb := fresh "Hb" in
  destruct (vm_isCheckpointAllowed w) eqn:Ha;
  [ destruct (checkpoint_allowed vm rq w Ha) as [Ho Ht];
    destruct (checkpoint_allowed_return vm rq w Ha) as [Hx Hp];
    rewrite ?Ho, ?Ht, ?Hx, ?Hp, ?(locals_before_release_allowed vm rq w Ha) in *;
    clear Ho Ht Hx Hp;
    remember (body_result vm rq w) as b eqn:Hb;
    unfold body_result, open_imagesDir_result, open_workDir_result, configure_result,
      exclusive_result, rt_after_string in Hb;
    repeat summary_step Hb;
    subst b; simpl_return
  | unfold outcome, trace, result_throwable, pending_on_return in *;
    rewrite ?(checkpoint_not_allowed vm rq w Ha),
      ?(locals_before_release_not_allowed vm rq w Ha) in *;
    simpl_return ].

(** ** The outcome

    X1: [checkpointJVMImpl] answers UNSUPPORTED_OPERATION exactly when
    the query [isCheckpointAllowed] answers false: both ask the same VM
    function, and no failure of a permitted checkpoint is reported as
    UNSUPPORTED_OPERATION. *)
Theorem unsupported_iff_query_says_no vm rq w th :
  outcome vm rq w = UNSUPPORTED_OPERATION <->
  fst (runState (Java_org_eclipse_openj9_criu_CRIUSupport_isCheckpointAllowed w) th)
    = false.
Proof.
  rewrite isCheckpointAllowed_run. cbn [fst].
  split.
  - rewrite (outcome_after_unwinding vm rq w).
    destruct (some_close_failed (trace vm rq w)); unfold late_failure;
      start_run vm rq w; try reflexivity; intros H; discriminate H.
  - intros Ha. unfold outcome. now rewrite (checkpoint_not_allowed vm rq w Ha).
Qed.

(** X2: the outcome is SUCCESS exactly when the restore hooks ran and
    succeeded and no [close] failed afterwards. *)
Theorem success_iff_all_succeeded vm rq w :
  outcome vm rq w = SUCCESS <->
  In (EJvmRestoreHooks true) (trace vm rq w) /\ some_close_failed (trace vm rq w) = false.
Proof.
  rewrite (outcome_after_unwinding vm rq w).
  destruct (some_close_failed (trace vm rq w)) eqn:Hc.
  - unfold late_failure. split; [|intros [_ H]; discriminate H].
    destruct (isAfterCheckpoint _); discriminate.
  - split.
    + intros H. split; [|reflexivity].
      apply (filter_In is_dump_or_restore_hooks).
      clear Hc. revert H.
      start_run vm rq w; norm_filter; intros H; try discriminate H; cbn; auto.
    + intros [H _].
      apply (in_filter is_dump_or_restore_hooks) in H; [|reflexivity].
      clear Hc.
      start_run vm rq w; norm_filter; in_concrete; try reflexivity;
        match goal with
        | E : EJvmRestoreHooks _ = EJvmRestoreHooks _ |- _ => injection E as E
        end; congruence.
Qed.

(** ** Which side of the checkpoint the outcome names *)

Ltac by_hyps :=
  repeat match goal with
  | E : ?c = _ |- context [?c] => rewrite E
  end.

(** X3: SUCCESS and JVM_RESTORE_FAILURE are the outcomes of an invocation
    whose dump succeeded, and of no other. *)
Theorem restored_iff_dump_succeeded vm rq w :
  (outcome vm rq w = SUCCESS \/ outcome vm rq w = JVM_RESTORE_FAILURE) <->
  existsb is_successful_dump (trace vm rq w) = true.
Proof.
  rewrite existsb_filter.
  start_run vm rq w; norm_filter;
    unfold close_fails, late_failure;
    try rewrite Z.leb_antisym; by_hyps; cbn;
    destruct (close_result w DirFD =? 0); cbn;
    try (destruct (close_result w WorkDirFD =? 0); cbn);
    intuition congruence.
Qed.

(** X4: SYSTEM_CHECKPOINT_FAILURE only comes from [criu_init_opts] or
    [criu_dump], and only when both closes succeeded. *)
Theorem system_checkpoint_failure_only_from_criu vm rq w :
  outcome vm rq w = SYSTEM_CHECKPOINT_FAILURE ->
  existsb is_failed_criu_call (trace vm rq w) = true /\
  some_close_failed (trace vm rq w) = false.
Proof.
  unfold some_close_failed. rewrite !existsb_filter.
  start_run vm rq w; norm_filter;
    unfold close_fails, late_failure;
    by_hyps; cbn;
    destruct (close_result w DirFD =? 0); cbn;
    try (destruct (close_result w WorkDirFD =? 0); cbn);
    intros Ho; try discriminate Ho; split; reflexivity.
Qed.

Lemma system_checkpoint_failure_only_from_criu_witness :
  existsb is_failed_criu_call (trace empty_vm images_only dump_fails) = true /\
  some_close_failed (trace empty_vm images_only dump_fails) = false.
Proof.
  apply (system_checkpoint_failure_only_from_criu empty_vm images_only dump_fails).
  reflexivity.
Defined.

(** X5 is [invalid_arguments_only_from_open] above; here it is applied to
    a run whose image directory cannot be opened. *)
Lemma invalid_arguments_only_from_open_witness :
  exists v,
    In (EOpen v (open_result no_images_dir v)) (trace empty_vm images_only no_images_dir) /\
    open_result no_images_dir v < 0.
Proof.
  apply (invalid_arguments_only_from_open empty_vm images_only no_images_dir).
  reflexivity.
Defined.


(** ** Failures before exclusive access *)

(** X6: when [open] fails on the work directory, the outcome is
    INVALID_ARGUMENTS (JVM_CHECKPOINT_FAILURE if closing the image
    directory fails as well), the image directory descriptor is the one
    descriptor closed, and neither CRIU nor exclusive VM access is
    touched. *)
Theorem unopenable_work_directory vm rq w fd :
  In (EOpen WorkDirFD fd) (trace vm rq w) -> fd < 0 ->
  outcome vm rq w =
    (if some_close_failed (trace vm rq w)
     then JVM_CHECKPOINT_FAILURE else INVALID_ARGUMENTS) /\
  filter is_close (trace vm rq w)
    = [EClose DirFD (open_result w DirFD) (close_result w DirFD)] /\
  filter is_criu_call (trace vm rq w) = [] /\
  ~ In EAcquireExclusiveVMAccess (trace vm rq w).
Proof.
  intros Hin Hneg.
  apply (in_filter (is_open_of WorkDirFD)) in Hin; [|reflexivity].
  unfold some_close_failed. rewrite existsb_filter.
  enough (outcome vm rq w =
            match filter is_failed_close (trace vm rq w) with
            | [] => INVALID_ARGUMENTS
            | _ :: _ => JVM_CHECKPOINT_FAILURE
            end /\
          filter is_close (trace vm rq w)
            = [EClose DirFD (open_result w DirFD) (close_result w DirFD)] /\
          filter is_criu_call (trace vm rq w) = [] /\
          filter is_acquire_exclusive (trace vm rq w) = []) as (H1 & H2 & H3 & H4).
  { rewrite H1. repeat split; try assumption.
    - destruct (filter is_failed_close (trace vm rq w)); reflexivity.
    - now apply (not_in_filter is_acquire_exclusive). }
  start_run vm rq w; norm_filter; try contradiction;
    destruct Hin as [Hin|[]]; injection Hin as <-; try lia;
    unfold close_fails, late_failure; cbn -[Z.eqb];
    destruct (close_result w DirFD =? 0); repeat split; reflexivity.
Qed.

Lemma unopenable_work_directory_witness :
  outcome empty_vm with_workDir no_work_dir =
    (if some_close_failed (trace empty_vm with_workDir no_work_dir)
     then JVM_CHECKPOINT_FAILURE else INVALID_ARGUMENTS) /\
  filter is_close (trace empty_vm with_workDir no_work_dir)
    = [EClose DirFD (open_result no_work_dir DirFD) (close_result no_work_dir DirFD)] /\
  filter is_criu_call (trace empty_vm with_workDir no_work_dir) = [] /\
  ~ In EAcquireExclusiveVMAccess (trace empty_vm with_workDir no_work_dir).
Proof.
  apply (unopenable_work_directory empty_vm with_workDir no_work_dir (-1)).
  - vm_compute. repeat first [left; reflexivity | right].
  - lia.
Defined.

(** X7: when [criu_init_opts] fails, the outcome is
    SYSTEM_CHECKPOINT_FAILURE (JVM_CHECKPOINT_FAILURE if a [close] fails
    as well), no other CRIU function is called and exclusive VM access is
    not acquired. *)
Theorem failed_criu_init_opts vm rq w rc :
  In (ECriuInitOpts rc) (trace vm rq w) -> rc <> 0 ->
  outcome vm rq w =
    (if some_close_failed (trace vm rq w)
     then JVM_CHECKPOINT_FAILURE else SYSTEM_CHECKPOINT_FAILURE) /\
  filter is_criu_call (trace vm rq w) = [ECriuInitOpts rc] /\
  ~ In EAcquireExclusiveVMAccess (trace vm rq w).
Proof.
  intros Hin Hrc.
  apply (in_filter (fun ev => match ev with ECriuInitOpts _ => true | _ => false end))
    in Hin; [|reflexivity].
  unfold some_close_failed. rewrite existsb_filter.
  enough (outcome vm rq w =
            match filter is_failed_close (trace vm rq w) with
            | [] => SYSTEM_CHECKPOINT_FAILURE
            | _ :: _ => JVM_CHECKPOINT_FAILURE
            end /\
          filter is_criu_call (trace vm rq w) = [ECriuInitOpts rc] /\
          filter is_acquire_exclusive (trace vm rq w) = []) as (H1 & H2 & H3).
  { rewrite H1. repeat split; try assumption.
    - destruct (filter is_failed_close (trace vm rq w)); reflexivity.
    - now apply (not_in_filter is_acquire_exclusive). }
  start_run vm rq w; norm_filter; try contradiction;
    destruct Hin as [Hin|[]]; injection Hin as <-; try lia;
    unfold close_fails, late_failure; cbn -[Z.eqb];
    destruct (close_result w DirFD =? 0), (close_result w WorkDirFD =? 0);
    repeat split; reflexivity.
Qed.

Lemma failed_criu_init_opts_witness :
  outcome empty_vm images_only init_fails =
    (if some_close_failed (trace empty_vm images_only init_fails)
     then JVM_CHECKPOINT_FAILURE else SYSTEM_CHECKPOINT_FAILURE) /\
  filter is_criu_call (trace empty_vm images_only init_fails) = [ECriuInitOpts (-1)] /\
  ~ In EAcquireExclusiveVMAccess (trace empty_vm images_only init_fails).
Proof.
  apply (failed_criu_init_opts empty_vm images_only init_fails (-1)).
  - vm_compute. repeat first [left; reflexivity | right].
  - lia.
Defined.

(** X8: when the checkpoint hooks fail, the outcome is
    JVM_CHECKPOINT_FAILURE whatever the closes do, and neither the dump
    nor the restore hooks run. *)
Theorem failed_checkpoint_hooks vm rq w :
  In (EJvmCheckpointHooks false) (trace vm rq w) ->
  outcome vm rq w = JVM_CHECKPOINT_FAILURE /\
  filter is_dump_or_restore_hooks (trace vm rq w) = [].
Proof.
  intros Hin.
  apply (in_filter (fun ev => match ev with EJvmCheckpointHooks _ => true | _ => false end))
    in Hin; [|reflexivity].
  start_run vm rq w; norm_filter; in_concrete;
    unfold late_failure; cbn;
    destruct (close_fails w WorkDirFD), (close_fails w DirFD); split; reflexivity.
Qed.

Lemma failed_checkpoint_hooks_witness :
  outcome empty_vm with_workDir checkpoint_hooks_fail = JVM_CHECKPOINT_FAILURE /\
  filter is_dump_or_restore_hooks (trace empty_vm with_workDir checkpoint_hooks_fail) = [].
Proof.
  apply (failed_checkpoint_hooks empty_vm with_workDir checkpoint_hooks_fail).
  vm_compute. repeat first [left; reflexivity | right].
Defined.

(** X9: when memory for a path string runs out, the outcome is
    JVM_CHECKPOINT_FAILURE, no CRIU function is called and exclusive VM
    access is not acquired. *)
Theorem allocation_failure_stops_before_criu vm rq w :
  existsb is_failed_allocation (trace vm rq w) = true ->
  outcome vm rq w = JVM_CHECKPOINT_FAILURE /\
  filter is_criu_call (trace vm rq w) = [] /\
  ~ In EAcquireExclusiveVMAccess (trace vm rq w).
Proof.
  rewrite existsb_filter. intros H.
  enough (outcome vm rq w = JVM_CHECKPOINT_FAILURE /\
          filter is_criu_call (trace vm rq w) = [] /\
          filter is_acquire_exclusive (trace vm rq w) = []) as (H1 & H2 & H3).
  { repeat split; try assumption. now apply (not_in_filter is_acquire_exclusive). }
  revert H.
  start_run vm rq w; norm_filter; intros H;
    rewrite ?no_failed_allocation in H by assumption;
    try discriminate H;
    rewrite ?(filter_gns is_criu_call), ?(filter_gns is_acquire_exclusive) by skipped;
    unfold late_failure; cbn;
    destruct (close_fails w DirFD); repeat split; reflexivity.
Qed.

Lemma allocation_failure_stops_before_criu_witness :
  outcome empty_vm images_only images_dir_out_of_memory = JVM_CHECKPOINT_FAILURE /\
  filter is_criu_call (trace empty_vm images_only images_dir_out_of_memory) = [] /\
  ~ In EAcquireExclusiveVMAccess (trace empty_vm images_only images_dir_out_of_memory).
Proof.
  apply (allocation_failure_stops_before_criu empty_vm images_only images_dir_out_of_memory).
  vm_compute. reflexivity.
Defined.

(** ** What runs under exclusive access *)

(** A selection reading "acquire, guarded calls, release" says of the
    whole trace that every guarded call lies between the two. *)
Lemma guarded_between (tr mid : list Event) :
  filter is_exclusive_phase tr
    = EAcquireExclusiveVMAccess :: mid ++ [EReleaseExclusiveVMAccess] ->
  forallb is_guarded_call mid = true ->
  forall tr1 ev tr2,
    tr = tr1 ++ ev :: tr2 -> is_guarded_call ev = true ->
    In EAcquireExclusiveVMAccess tr1 /\ In EReleaseExclusiveVMAccess tr2.
Proof.
  intros Hsel Hmid tr1 ev tr2 -> Hev.
  rewrite filter_app in Hsel. cbn in Hsel.
  replace (is_exclusive_phase ev) with true in Hsel
    by (destruct ev; try discriminate Hev; reflexivity).
  split.
  - destruct (filter is_exclusive_phase tr1) as [|x sel1] eqn:E1; cbn in Hsel.
    + injection Hsel as -> _. discriminate Hev.
    + injection Hsel as -> _.
      apply (filter_In is_exclusive_phase). rewrite E1. now left.
  - apply (filter_In is_exclusive_phase).
    destruct (filter is_exclusive_phase tr2) as [|y sel2] eqn:E2 using rev_ind.
    + rewrite app_comm_cons in Hsel.
      apply app_inj_tail in Hsel as [_ ->]. discriminate Hev.
    + clear IHsel2.
      change (filter is_exclusive_phase tr1 ++ ev :: sel2 ++ [y])
        with (filter is_exclusive_phase tr1 ++ (ev :: sel2) ++ [y]) in Hsel.
      rewrite app_assoc, app_comm_cons in Hsel.
      apply app_inj_tail in Hsel as [_ ->].
      apply in_or_app. right. now left.
Qed.

Lemma exclusive_phase_skeleton vm rq w :
  filter is_exclusive_phase (trace vm rq w) = [] \/
  exists mid,
    filter is_exclusive_phase (trace vm rq w)
      = EAcquireExclusiveVMAccess :: mid ++ [EReleaseExclusiveVMAccess] /\
    forallb is_guarded_call mid = true.
Proof.
  start_run vm rq w; norm_filter;
    first [ left; reflexivity
          | right;
            match goal with
            | |- exists mid, _ :: ?l = _ /\ _ => exists (removelast l)
            end; split; reflexivity ].
Qed.

(** X10: the checkpoint hooks, the dump and the restore hooks each run
    after exclusive VM access was acquired and before it is released. *)
Theorem hooks_and_dump_under_exclusive_access vm rq w tr1 ev tr2 :
  trace vm rq w = tr1 ++ ev :: tr2 -> is_guarded_call ev = true ->
  In EAcquireExclusiveVMAccess tr1 /\ In EReleaseExclusiveVMAccess tr2.
Proof.
  intros Hsplit Hev.
  destruct (exclusive_phase_skeleton vm rq w) as [Hnone | (mid & Hsel & Hmid)].
  - exfalso.
    assert (Hin : In ev (filter is_exclusive_phase (trace vm rq w))).
    { apply filter_In. split.
      - rewrite Hsplit. apply in_or_app. right. now left.
      - destruct ev; try discriminate Hev; reflexivity. }
    rewrite Hnone in Hin. exact Hin.
  - exact (guarded_between (trace vm rq w) mid Hsel Hmid tr1 ev tr2 Hsplit Hev).
Qed.

Lemma hooks_and_dump_under_exclusive_access_witness :
  In EAcquireExclusiveVMAccess
    [EEnterVM; EAssertNotNull true;
     ECopyStringToUTF8 ImagesDir PtrStackBuf; EStoreNul ImagesDir 8;
     EOpen DirFD 5; ECriuInitOpts 0;
     ECriuSetImagesDirFd 5; ECriuSetShellJob false; ECriuSetLeaveRunning false;
     ECriuSetExtUnixSk false; ECriuSetFileLocks false;
     EAcquireExclusiveVMAccess; EJvmCheckpointHooks true] /\
  In EReleaseExclusiveVMAccess
    [EJvmRestoreHooks true; EReleaseExclusiveVMAccess;
     EClose WorkDirFD 0 0; EClose DirFD 5 0; EExitVM].
Proof.
  apply (hooks_and_dump_under_exclusive_access empty_vm images_only all_succeed
           _ (ECriuDump 0) _); reflexivity.
Defined.

(** ** Entering and leaving the VM *)

Lemma filter_tail_events_exit (f : Event -> bool) w pending :
  f (ECreateLocalRef (j9jni_createLocalRef w)) = false ->
  f EExitVM = true ->
  filter f (tail_events w pending) = [EExitVM].
Proof.
  intros H1 H2. unfold tail_events. destruct pending; cbn; rewrite ?H1, ?H2; reflexivity.
Qed.

Lemma last_tail_events w pending l d :
  last (l ++ tail_events w pending) d = EExitVM.
Proof. unfold tail_events. rewrite !app_assoc. apply last_last. Qed.

(** X11: a permitted invocation enters the VM first, leaves it last, and
    does neither in between, on every path. *)
Theorem vm_entered_first_left_last vm rq w :
  vm_isCheckpointAllowed w = true ->
  hd_error (trace vm rq w) = Some EEnterVM /\
  last (trace vm rq w) EEnterVM = EExitVM /\
  filter is_vm_access (trace vm rq w) = [EEnterVM; EExitVM].
Proof.
  intros Hallowed.
  start_run vm rq w; try discriminate Hallowed.
  all: split; [|split];
    [ reflexivity
    | rewrite ?app_assoc; apply last_tail_events
    | rewrite ?filter_app;
      rewrite ?(filter_gns is_vm_access) by skipped;
      rewrite ?(filter_configure_events is_vm_access) by skipped;
      rewrite ?filter_free_native;
      rewrite ?(filter_tail_events_exit is_vm_access) by reflexivity;
      reflexivity ].
Qed.

Lemma vm_entered_first_left_last_witness :
  hd_error (trace empty_vm with_workDir dump_fails) = Some EEnterVM /\
  last (trace empty_vm with_workDir dump_fails) EEnterVM = EExitVM /\
  filter is_vm_access (trace empty_vm with_workDir dump_fails) = [EEnterVM; EExitVM].
Proof.
  apply (vm_entered_first_left_last empty_vm with_workDir dump_fails).
  reflexivity.
Defined.

(** ** The settings handed to CRIU *)

Lemma filter_all {A} (f : A -> bool) (l : list A) :
  (forall x, In x l -> f x = true) -> filter f l = l.
Proof.
  induction l as [|x l IH]; cbn; intros H; [reflexivity|].
  rewrite (H x (or_introl eq_refl)). f_equal. apply IH. intros y Hy. apply H. now right.
Qed.

Lemma filter_configure_events_all (f : Event -> bool) rq l :
  (forall ev, is_configure_event ev = true -> f ev = true) ->
  filter f (configure_events rq l) = configure_events rq l.
Proof.
  intros Hf. apply filter_all. intros ev Hev. apply Hf.
  exact (in_configure_events rq l ev Hev).
Qed.

(** X12: once [criu_init_opts] succeeded, each setting of the request is
    handed to CRIU once, in the order of lines 283-296, with the
    descriptors [open] returned, and all of it before exclusive VM access
    is acquired. *)
Theorem settings_forwarded_before_exclusive_access vm rq w :
  In (ECriuInitOpts 0) (trace vm rq w) ->
  filter is_configure_or_acquire (trace vm rq w)
    = requested_settings rq w ++ [EAcquireExclusiveVMAccess].
Proof.
  intros Hin.
  apply (in_filter (fun ev => match ev with ECriuInitOpts _ => true | _ => false end))
    in Hin; [|reflexivity].
  start_run vm rq w; norm_filter; in_concrete;
    try match goal with
        | E : ECriuInitOpts _ = ECriuInitOpts _ |- _ =>
            injection E as E; rewrite E in *; discriminate
        end;
    rewrite ?filter_app;
    rewrite ?(filter_gns is_configure_or_acquire) by skipped;
    rewrite ?(filter_configure_events_all is_configure_or_acquire)
      by (intros []; cbn; congruence);
    rewrite ?filter_free_native;
    rewrite ?(filter_tail_events is_configure_or_acquire) by reflexivity;
    unfold configure_events, requested_settings; by_hyps;
    cbn -[Z.gtb]; destruct (logLevel rq >? 0); reflexivity.
Qed.

Lemma settings_forwarded_before_exclusive_access_witness :
  filter is_configure_or_acquire (trace empty_vm with_workDir all_succeed)
    = [ECriuSetImagesDirFd 5; ECriuSetShellJob false; ECriuSetLogLevel 2;
       ECriuSetLogFile; ECriuSetLeaveRunning true; ECriuSetExtUnixSk false;
       ECriuSetFileLocks false; ECriuSetWorkDirFd 6; EAcquireExclusiveVMAccess].
Proof.
  apply (settings_forwarded_before_exclusive_access empty_vm with_workDir all_succeed).
  vm_compute. repeat first [left; reflexivity | right].
Defined.


(** ** The throwable of the result *)

Lemma filter_tail_events_ref w pending :
  filter is_create_local_ref (tail_events w pending)
    = match pending with
      | Some _ => [ECreateLocalRef (j9jni_createLocalRef w)]
      | None => []
      end.
Proof. unfold tail_events. destruct pending; reflexivity. Qed.

Lemma local_ref_skeleton vm rq w :
  exists pending : option Exception,
    filter is_create_local_ref (trace vm rq w)
      = match pending with
        | Some _ => [ECreateLocalRef (j9jni_createLocalRef w)]
        | None => []
        end /\
    result_throwable vm rq w
      = (if j9jni_createLocalRef w then pending else None) /\
    pending_on_return vm rq w
      = match pending with
        | Some _ => if j9jni_createLocalRef w then None else Some NativeOutOfMemoryError
        | None => None
        end.
Proof.
  start_return vm rq w;
    [ .. | exists None; repeat split; destruct (j9jni_createLocalRef w); reflexivity ].
  all: rewrite ?filter_app;
    rewrite ?(filter_gns is_create_local_ref) by skipped;
    rewrite ?(filter_configure_events is_create_local_ref) by skipped;
    rewrite ?filter_free_native, ?filter_tail_events_ref;
    cbn -[In Z.ltb Z.eqb Z.gtb free_native tail_events gns_events gns_ok gns_chars
          configure_events close_fails late_failure].
  all: unfold close_exception;
    destruct (j9jni_createLocalRef w);
    repeat match goal with
    | |- context [if ?c then _ else _] => destruct c
    end;
    first [ exists None; repeat split; reflexivity
          | exists (Some NativeOutOfMemoryError); repeat split; reflexivity
          | eexists (Some _); repeat split; reflexivity ].
Qed.

(** X13: however the invocation ends, the exception it raised is either
    handed over in the result or replaced by a pending OutOfMemoryError;
    it never returns with both. *)
Theorem exception_handed_over_or_out_of_memory vm rq w :
  pending_on_return vm rq w
    = (if existsb is_failed_local_ref (trace vm rq w)
       then Some NativeOutOfMemoryError else None) /\
  (result_throwable vm rq w <> None <-> In (ECreateLocalRef true) (trace vm rq w)) /\
  (result_throwable vm rq w = None \/ pending_on_return vm rq w = None).
Proof.
  destruct (local_ref_skeleton vm rq w) as (pending & Hsel & Hx & Hp).
  assert (Hex : existsb is_failed_local_ref (trace vm rq w)
                = existsb is_failed_local_ref
                    (filter is_create_local_ref (trace vm rq w))).
  { rewrite !existsb_filter.
    now rewrite filter_filter_sub by (intros []; cbn; congruence). }
  assert (Hin : In (ECreateLocalRef true) (trace vm rq w)
                <-> In (ECreateLocalRef true)
                      (filter is_create_local_ref (trace vm rq w))).
  { rewrite filter_In. intuition. }
  rewrite Hex, Hin, Hsel, Hx, Hp.
  destruct pending, (j9jni_createLocalRef w); cbn;
    (split; [reflexivity|split; [|tauto]]);
    intuition congruence.
Qed.

(** X14: after a failed [close] the result carries the error of the close
    that failed last, whatever error was pending before. *)
Theorem last_failed_close_is_reported vm rq w :
  some_close_failed (trace vm rq w) = true ->
  j9jni_createLocalRef w = true ->
  result_throwable vm rq w
    = Some (InternalError J9NLS_JCL_CRIU_FAILED_TO_CLOSE_DIR
              (close_errno w (if close_result w DirFD =? 0 then WorkDirFD else DirFD))).
Proof.
  unfold some_close_failed. rewrite existsb_filter. intros Hc Href.
  start_return vm rq w; norm_filter; try discriminate Hc;
    rewrite Href; unfold close_fails, close_exception in *;
    destruct (close_result w DirFD =? 0); try discriminate Hc; try reflexivity;
    destruct (close_result w WorkDirFD =? 0); try discriminate Hc; reflexivity.
Qed.

Lemma last_failed_close_is_reported_witness :
  result_throwable empty_vm with_workDir both_closes_fail
    = Some (InternalError J9NLS_JCL_CRIU_FAILED_TO_CLOSE_DIR 9).
Proof.
  apply (last_failed_close_is_reported empty_vm with_workDir both_closes_fail);
    reflexivity.
Defined.

Lemma gns_error w k e ev :
  In ev (gns_events k e) -> has_error w ev = true ->
  gns_ok e = false /\ error_of_call w ev = Some NativeOutOfMemoryError.
Proof.
  unfold gns_ok, gns_events, gns_run, getNativeString, getNativeString_convert.
  destruct e as [c s a r].
  gns_paths; intros Hin Herr;
    repeat match type of Hin with
    | _ \/ _ => destruct Hin as [Hin|Hin]
    | False => destruct Hin
    end; subst ev; try discriminate Herr; split; reflexivity.
Qed.

Ltac in_trace H :=
  repeat match type of H with
  | In _ (_ ++ _) => apply in_app_or in H; destruct H as [H|H]
  | In _ (_ :: _) => destruct H as [H|H]
  | In _ [] => destruct H
  | In _ (configure_events _ _) => apply in_configure_events in H
  | In _ (free_native _ _) => apply in_free_native in H
  | In _ (tail_events _ _) => apply in_tail_events in H; destruct H as [H|H]
  end.

(** X15: when a call fails and both closes succeed, the result carries
    the error of that call. *)
Theorem failed_call_is_reported vm rq w ev exn :
  In ev (trace vm rq w) ->
  error_of_call w ev = Some exn ->
  some_close_failed (trace vm rq w) = false ->
  j9jni_createLocalRef w = true ->
  result_throwable vm rq w = Some exn.
Proof.
  unfold some_close_failed. rewrite existsb_filter. intros Hin Herr Hc Href.
  assert (Hhas : has_error w ev = true) by (unfold has_error; now rewrite Herr).
  start_return vm rq w; norm_filter; rewrite ?Href;
    unfold close_fails, close_exception in *;
    repeat match type of Hc with
    | context [if negb (?c =? 0) then _ else _] =>
        destruct (c =? 0); cbn in Hc; try discriminate Hc
    end;
    cbn -[In app Z.ltb Z.eqb Z.gtb free_native tail_events gns_events gns_ok
          gns_chars configure_events];
    in_trace Hin;
    try (subst ev; cbn -[Z.ltb Z.eqb] in Herr;
         repeat match type of Herr with
         | context [if ?c then _ else _] =>
             match goal with
             | E : c = _ |- _ => rewrite E in Herr
             end
         end;
         congruence);
    try (destruct ev; discriminate);
    try (apply (gns_error w) in Hin as [Hok Hoom]; [congruence|exact Hhas]).
Qed.

Lemma failed_call_is_reported_witness :
  result_throwable empty_vm with_workDir no_work_dir
    = Some (InternalError J9NLS_JCL_CRIU_FAILED_TO_OPEN_DIR 13).
Proof.
  apply (failed_call_is_reported empty_vm with_workDir no_work_dir
           (EOpen WorkDirFD (-1)));
    [ vm_compute; repeat first [left; reflexivity | right]
    | reflexivity | reflexivity | reflexivity ].
Defined.

(** X16: a successful checkpoint returns no throwable and leaves no
    exception pending. *)
Theorem success_has_no_throwable vm rq w :
  outcome vm rq w = SUCCESS ->
  result_throwable vm rq w = None /\ pending_on_return vm rq w = None.
Proof.
  start_return vm rq w; intros Ho; try discriminate Ho;
    unfold close_fails, close_exception, late_failure in *;
    destruct (close_result w DirFD =? 0); try discriminate Ho;
    destruct (close_result w WorkDirFD =? 0); try discriminate Ho;
    split; reflexivity.
Qed.

Lemma success_has_no_throwable_witness :
  result_throwable empty_vm with_workDir all_succeed = None /\
  pending_on_return empty_vm with_workDir all_succeed = None.
Proof.
  apply (success_has_no_throwable empty_vm with_workDir all_succeed). reflexivity.
Defined.

(** ** Memory and descriptors *)

(** X17 is [handles_balanced] above; here it is applied to the work
    directory descriptor of a run whose dump fails. *)
Lemma handles_balanced_witness :
  filter (Handle_eqb (HFd WorkDirFD)) (released (trace empty_vm with_workDir dump_fails))
    = filter (Handle_eqb (HFd WorkDirFD))
        (acquired (trace empty_vm with_workDir dump_fails)) /\
  (List.length
     (filter (Handle_eqb (HFd WorkDirFD))
        (acquired (trace empty_vm with_workDir dump_fails))) <= 1)%nat.
Proof.
  apply (handles_balanced empty_vm with_workDir dump_fails (HFd WorkDirFD)).
  intros _. discriminate.
Defined.


Lemma gns_no_free_of_stack_buf k e :
  filter is_free_of_stack_buf (gns_events k e) = [].
Proof.
  unfold gns_events, gns_run, getNativeString, getNativeString_convert.
  destruct e as [c s a r].
  gns_paths; reflexivity.
Qed.

(** X19: [j9mem_free_memory] is never handed one of the stack buffers. *)
Theorem stack_buffers_never_freed vm rq w :
  filter is_free_of_stack_buf (trace vm rq w) = [].
Proof.
  start_run vm rq w;
    rewrite ?filter_app, ?gns_no_free_of_stack_buf;
    rewrite ?(filter_configure_events is_free_of_stack_buf) by skipped;
    rewrite ?(filter_tail_events is_free_of_stack_buf) by reflexivity;
    unfold free_native;
    repeat match goal with
    | |- context [gns_chars ?e] => destruct (gns_chars e)
    end; reflexivity.
Qed.

Lemma gns_failed_allocation k e ev :
  In ev (gns_events k e) -> is_failed_allocation ev = true ->
  (ev = ECopyStringToUTF8 k PtrNull /\ In (EFreeUTF8 k PtrNull) (gns_events k e)) \/
  (exists n, ev = EAllocateNative k n PtrNull) /\ gns_chars e = PtrNull.
Proof.
  unfold gns_chars, gns_events, gns_run, getNativeString, getNativeString_convert.
  destruct e as [c s a r].
  gns_paths; intros Hin Herr;
    repeat match type of Hin with
    | _ \/ _ => destruct Hin as [Hin|Hin]
    | False => destruct Hin
    end; subst ev; try discriminate Herr;
    first [ left; split; [reflexivity|cbn; tauto]
          | right; split; [eexists; reflexivity|reflexivity] ].
Qed.

Ltac in_find :=
  match goal with
  | |- In _ (_ ++ _) => apply in_or_app; first [left; in_find | right; in_find]
  | |- In _ (_ :: _) => first [left; reflexivity | right; in_find]
  | |- In _ _ => assumption
  end.

(** X20: after an allocation failed, the NULL pointer it returned is
    handed to [j9mem_free_memory]: by [getNativeString] for the UTF-8
    copy, by the unwinding code for a native string. *)
Theorem null_pointer_is_freed vm rq w ev free :
  In ev (trace vm rq w) ->
  free_after_failed_allocation ev = Some free ->
  In free (trace vm rq w).
Proof.
  intros Hin Hfree.
  assert (Hfail : is_failed_allocation ev = true).
  { destruct ev as [| | |? []|? ? []| | | | | | | | | | | | | | | | | | | | |];
      try discriminate Hfree; reflexivity. }
  start_run vm rq w; in_trace Hin;
    try (subst ev; discriminate Hfree);
    try (destruct ev; discriminate);
    apply gns_failed_allocation in Hin as [[-> Hin] | [[n ->] Hchars]];
    try exact Hfail;
    injection Hfree as <-;
    rewrite ?Hchars; cbn -[In app gns_events tail_events configure_events];
    in_find.
Qed.

Lemma null_pointer_is_freed_witness :
  In (EFreeNative ImagesDir PtrNull)
    (trace empty_vm images_only images_dir_allocation_fails).
Proof.
  apply (null_pointer_is_freed empty_vm images_only images_dir_allocation_fails
           (EAllocateNative ImagesDir 301 PtrNull));
    [ vm_compute; repeat first [left; reflexivity | right] | reflexivity ].
Defined.

(** X18: [close] is called on a descriptor that [open] returned, with one
    exception: the initial value 0 of [workDirFD] when the request names
    no work directory. *)
Theorem closed_descriptors vm rq w v fd rc :
  In (EClose v fd rc) (trace vm rq w) ->
  (0 <= fd /\ In (EOpen v fd) (trace vm rq w)) \/
  (v = WorkDirFD /\ fd = 0 /\ workDir rq = None).
Proof.
  intros Hin.
  start_run vm rq w; in_trace Hin;
    try discriminate Hin;
    try (apply gns_events_helper in Hin; discriminate Hin);
    try (destruct (gns_chars _); discriminate Hin);
    injection Hin as <- <- _;
    first [ right; repeat split; assumption
          | left; split; [lia | in_find] ].
Qed.

Lemma closed_descriptors_witness :
  (0 <= 6 /\ In (EOpen WorkDirFD 6) (trace empty_vm with_workDir dump_fails)) \/
  (WorkDirFD = WorkDirFD /\ 6 = 0 /\ workDir with_workDir = None).
Proof.
  apply (closed_descriptors empty_vm with_workDir dump_fails WorkDirFD 6 0).
  vm_compute. repeat first [left; reflexivity | right].
Defined.

(** ** [getNativeString] on its own *)

Lemma to_UDATA_small z : 0 <= z < 2 ^ UDATA_BITS -> to_UDATA z = z.
Proof. intros H. unfold to_UDATA. now apply Z.mod_small. Qed.

Lemma to_UDATA_negative z : - 2 ^ UDATA_BITS <= z < 0 -> to_UDATA z = 2 ^ UDATA_BITS + z.
Proof.
  intros H. unfold to_UDATA.
  symmetry. apply (Z.mod_unique_pos z (2 ^ UDATA_BITS) (-1)); lia.
Qed.

Ltac gns_open e th :=
  unfold getNativeString, getNativeString_convert;
  destruct e as [c s a r]; destruct th as [vm x evs];
  cbn [copyStringToUTF8WithMemAlloc omrstr_convert_size j9mem_allocate_memory
       omrstr_convert_result] in *.

(** X21: a string whose native form, with its terminator, fits the 256
    bytes of the caller's buffer is converted in place: nothing is
    allocated, the terminator is stored at the index of the size, and the
    pending exception, the result type and the caller's pointer stay as
    they were. *)
Theorem getNativeString_short_string k e p rt th :
  copyStringToUTF8WithMemAlloc e <> PtrNull ->
  0 <= omrstr_convert_size e < STRING_BUFFER_SIZE ->
  runState (getNativeString k e p rt) th =
    ((true, p, rt),
     mkThread (javaVM th) (currentException th)
       (events th
        ++ [ECopyStringToUTF8 k (copyStringToUTF8WithMemAlloc e);
            EStoreNul k (omrstr_convert_size e)]
        ++ (if is_stack_buf (copyStringToUTF8WithMemAlloc e) then []
            else [EFreeUTF8 k (copyStringToUTF8WithMemAlloc e)]))).
Proof.
  intros Hc Hs. gns_open e th. unfold STRING_BUFFER_SIZE in *.
  assert (E1 : to_UDATA s = s) by (apply to_UDATA_small; unfold UDATA_BITS; lia).
  assert (E2 : to_UDATA (s + 1) = s + 1) by (apply to_UDATA_small; unfold UDATA_BITS; lia).
  assert (E3 : to_UDATA (s + 1 - 1) = s).
  { replace (s + 1 - 1) with s by lia. exact E1. }
  assert (E4 : (s + 1 >? 256) = false) by lia.
  destruct c; [contradiction| |];
    cbn -[to_UDATA Z.ltb Z.gtb];
    rewrite !to_UDATA_ltb_0, E1, E2, E4;
    cbn -[to_UDATA Z.ltb Z.gtb];
    rewrite ?to_UDATA_ltb_0, ?E3;
    cbn; rewrite <- ?app_assoc; reflexivity.
Qed.

Lemma getNativeString_short_string_witness :
  runState (getNativeString LogFile longest_short_path PtrStackBuf INVALID_ARGUMENTS)
    (on_entry empty_vm) =
    ((true, PtrStackBuf, INVALID_ARGUMENTS),
     mkThread empty_vm None
       [ECopyStringToUTF8 LogFile PtrStackBuf; EStoreNul LogFile 255]).
Proof.
  apply (getNativeString_short_string LogFile longest_short_path PtrStackBuf
           INVALID_ARGUMENTS (on_entry empty_vm));
    [ discriminate | vm_compute; split; [discriminate | reflexivity] ].
Defined.

(** X22: a longer string is converted into memory from
    [j9mem_allocate_memory], asked for with the size plus one; when there
    is none the helper fails with a pending OutOfMemoryError, NULL in the
    caller's pointer, and no terminator stored. *)
Theorem getNativeString_long_string k e p rt th :
  copyStringToUTF8WithMemAlloc e <> PtrNull ->
  STRING_BUFFER_SIZE <= omrstr_convert_size e < 2 ^ 31 ->
  runState (getNativeString k e p rt) th =
    let copy := copyStringToUTF8WithMemAlloc e in
    let size := omrstr_convert_size e in
    let free := if is_stack_buf copy then [] else [EFreeUTF8 k copy] in
    if j9mem_allocate_memory e then
      ((true, PtrHeap, rt),
       mkThread (javaVM th) (currentException th)
         (events th
          ++ [ECopyStringToUTF8 k copy; EAllocateNative k (size + 1) PtrHeap;
              EStoreNul k size] ++ free))
    else
      ((false, PtrNull, JVM_CHECKPOINT_FAILURE),
       mkThread (javaVM th) (Some NativeOutOfMemoryError)
         (events th
          ++ [ECopyStringToUTF8 k copy; EAllocateNative k (size + 1) PtrNull] ++ free)).
Proof.
  intros Hc Hs. gns_open e th. unfold STRING_BUFFER_SIZE in *.
  assert (E1 : to_UDATA s = s) by (apply to_UDATA_small; unfold UDATA_BITS; lia).
  assert (E2 : to_UDATA (s + 1) = s + 1) by (apply to_UDATA_small; unfold UDATA_BITS; lia).
  assert (E3 : to_UDATA (s + 1 - 1) = s).
  { replace (s + 1 - 1) with s by lia. exact E1. }
  assert (E4 : (s + 1 >? 256) = true) by lia.
  destruct c; [contradiction| |];
    cbn -[to_UDATA Z.ltb Z.gtb];
    rewrite !to_UDATA_ltb_0, E1, E2, E4;
    destruct a;
    cbn -[to_UDATA Z.ltb Z.gtb];
    rewrite ?to_UDATA_ltb_0, ?E3;
    cbn; rewrite <- ?app_assoc; reflexivity.
Qed.

Lemma getNativeString_long_string_witness :
  runState (getNativeString WorkDir long_path_out_of_memory PtrStackBuf SUCCESS)
    (on_entry empty_vm) =
    ((false, PtrNull, JVM_CHECKPOINT_FAILURE),
     mkThread empty_vm (Some NativeOutOfMemoryError)
       [ECopyStringToUTF8 WorkDir PtrHeap; EAllocateNative WorkDir 301 PtrNull;
        EFreeUTF8 WorkDir PtrHeap]).
Proof.
  apply (getNativeString_long_string WorkDir long_path_out_of_memory PtrStackBuf
           SUCCESS (on_entry empty_vm));
    [ discriminate | vm_compute; split; [discriminate | reflexivity] ].
Defined.

(** X23: an error status below -1 from the sizing call of
    [omrstr_convert] is not detected: taken as an unsigned size it asks
    [j9mem_allocate_memory] for [2^64 + status + 1] bytes. *)
Theorem getNativeString_error_status_is_a_size k e p rt th :
  copyStringToUTF8WithMemAlloc e <> PtrNull ->
  - 2 ^ 31 <= omrstr_convert_size e < -1 ->
  exists ptr,
    In (EAllocateNative k (2 ^ 64 + omrstr_convert_size e + 1) ptr)
      (events (snd (runState (getNativeString k e p rt) th))).
Proof.
  intros Hc Hs. gns_open e th.
  assert (E1 : to_UDATA s = 2 ^ 64 + s)
    by (apply to_UDATA_negative; unfold UDATA_BITS; lia).
  assert (E2 : to_UDATA (2 ^ 64 + s + 1) = 2 ^ 64 + s + 1)
    by (apply to_UDATA_small; unfold UDATA_BITS; lia).
  assert (E4 : (2 ^ 64 + s + 1 >? STRING_BUFFER_SIZE) = true)
    by (unfold STRING_BUFFER_SIZE; lia).
  exists (if a then PtrHeap else PtrNull).
  destruct c; [contradiction| |];
    cbn -[to_UDATA Z.ltb Z.gtb Z.pow Z.add Z.sub];
    rewrite !to_UDATA_ltb_0, E1, E2, E4;
    destruct a;
    cbn -[to_UDATA Z.ltb Z.gtb Z.pow Z.add Z.sub In];
    rewrite ?to_UDATA_ltb_0;
    cbn -[to_UDATA Z.ltb Z.gtb Z.pow Z.add Z.sub In];
    rewrite ?in_app_iff; cbn -[Z.pow Z.add Z.sub]; tauto.
Qed.

Lemma getNativeString_error_status_is_a_size_witness :
  exists ptr,
    In (EAllocateNative ImagesDir (2 ^ 64 + (-2) + 1) ptr)
      (events (snd (runState
         (getNativeString ImagesDir unconvertible_heap_path PtrStackBuf SUCCESS)
         (on_entry empty_vm)))).
Proof.
  apply (getNativeString_error_status_is_a_size ImagesDir unconvertible_heap_path
           PtrStackBuf SUCCESS (on_entry empty_vm));
    [ discriminate | vm_compute; split; [discriminate | reflexivity] ].
Defined.

(** X24: on every path out of [getNativeString] the UTF-8 copy is released:
    the calls of the helper start with the copy and, unless the copy is
    the helper's stack buffer, end with [j9mem_free_memory] on it; in
    between are only the allocation and the terminator store. *)
Theorem getNativeString_frees_its_copy k e p rt th :
  exists mid,
    events (snd (runState (getNativeString k e p rt) th))
      = events th
        ++ ECopyStringToUTF8 k (copyStringToUTF8WithMemAlloc e) :: mid
        ++ (if is_stack_buf (copyStringToUTF8WithMemAlloc e) then []
            else [EFreeUTF8 k (copyStringToUTF8WithMemAlloc e)]) /\
    forallb is_allocation_or_store mid = true.
Proof.
  gns_open e th.
  gns_paths; rewrite <- ?app_assoc; cbn;
    match goal with
    | |- exists mid, _ ++ _ :: ?l = _ /\ _ =>
        first [ exists (removelast l); split; reflexivity
              | exists l; split; reflexivity ]
    end.
Qed.

(** X25: a failed [getNativeString] leaves an OutOfMemoryError pending and
    no memory for the caller to free: the caller's pointer is as it was,
    or NULL; one of its two allocations failed. *)
Theorem getNativeString_failure k e p rt th :
  fst (fst (fst (runState (getNativeString k e p rt) th))) = false ->
  currentException (snd (runState (getNativeString k e p rt) th))
    = Some NativeOutOfMemoryError /\
  (snd (fst (fst (runState (getNativeString k e p rt) th))) = p \/
   snd (fst (fst (runState (getNativeString k e p rt) th))) = PtrNull) /\
  existsb is_failed_allocation
    (skipn (List.length (events th))
       (events (snd (runState (getNativeString k e p rt) th)))) = true.
Proof.
  gns_open e th.
  gns_paths; intros H; try discriminate H;
    rewrite <- ?app_assoc;
    (split; [reflexivity|split; [tauto|]]);
    rewrite skipn_app, skipn_all, Nat.sub_diag; reflexivity.
Qed.

Lemma getNativeString_failure_witness :
  currentException
    (snd (runState (getNativeString ImagesDir long_path_out_of_memory PtrStackBuf SUCCESS)
            (on_entry empty_vm)))
    = Some NativeOutOfMemoryError /\
  (snd (fst (fst (runState
      (getNativeString ImagesDir long_path_out_of_memory PtrStackBuf SUCCESS)
      (on_entry empty_vm)))) = PtrStackBuf \/
   snd (fst (fst (runState
      (getNativeString ImagesDir long_path_out_of_memory PtrStackBuf SUCCESS)
      (on_entry empty_vm)))) = PtrNull) /\
  existsb is_failed_allocation
    (skipn (List.length (events (on_entry empty_vm)))
       (events (snd (runState
          (getNativeString ImagesDir long_path_out_of_memory PtrStackBuf SUCCESS)
          (on_entry empty_vm))))) = true.
Proof.
  apply (getNativeString_failure ImagesDir long_path_out_of_memory PtrStackBuf SUCCESS
           (on_entry empty_vm)).
  reflexivity.
Defined.

(** ** [setupJNIFieldIDs] without the classes *)

(** X26: when a global reference to one of the two classes is NULL, both
    [NewGlobalRef] calls were still made and their results stored, no ID
    is looked up (the seven ID slots keep what they held), and an
    OutOfMemoryError is set between entering and leaving the VM. *)
Theorem setupJNIFieldIDs_without_classes j th :
  NewGlobalRef j (FindClass j CRIUResultType_class) = NULL \/
  NewGlobalRef j (FindClass j CRIUResult_class) = NULL ->
  runState (setupJNIFieldIDs j) th =
    (tt,
     mkThread
       (mkJavaVM (NewGlobalRef j (FindClass j CRIUResultType_class))
          (NewGlobalRef j (FindClass j CRIUResult_class))
          (criuSupportSuccess (javaVM th))
          (criuSupportUnsupportedOperation (javaVM th))
          (criuSupportInvalidArguments (javaVM th))
          (criuSupportSystemCheckpointFailure (javaVM th))
          (criuSupportJVMCheckpointFailure (javaVM th))
          (criuSupportJVMRestoreFailure (javaVM th))
          (criuResultInit (javaVM th)))
       (Some NativeOutOfMemoryError)
       (events th ++
        [EAssertNotNull (negb (FindClass j CRIUResultType_class =? NULL));
         ENewGlobalRef (FindClass j CRIUResultType_class)
           (NewGlobalRef j (FindClass j CRIUResultType_class));
         EAssertNotNull (negb (FindClass j CRIUResult_class =? NULL));
         ENewGlobalRef (FindClass j CRIUResult_class)
           (NewGlobalRef j (FindClass j CRIUResult_class));
         EEnterVM; EExitVM])).
Proof.
  intros Hnull.
  assert (Hboth :
    negb (NewGlobalRef j (FindClass j CRIUResultType_class) =? NULL)
    && negb (NewGlobalRef j (FindClass j CRIUResult_class) =? NULL) = false).
  { destruct Hnull as [-> | ->]; cbn; [reflexivity|apply andb_false_r]. }
  destruct th as [vm x evs]. destruct vm.
  unfold setupJNIFieldIDs, setupStaticFieldID, Assert_CRIU_notNull.
  cbn -[Z.eqb]. rewrite Hboth. cbn -[Z.eqb].
  rewrite <- !app_assoc. reflexivity.
Qed.

Lemma setupJNIFieldIDs_without_classes_witness :
  runState (setupJNIFieldIDs jni_out_of_global_refs) (on_entry filled_vm) =
    (tt,
     mkThread (mkJavaVM 0 0 21 21 21 21 21 21 31)
       (Some NativeOutOfMemoryError)
       [EAssertNotNull true; ENewGlobalRef 11 0;
        EAssertNotNull true; ENewGlobalRef 11 0;
        EEnterVM; EExitVM]).
Proof.
  apply (setupJNIFieldIDs_without_classes jni_out_of_global_refs (on_entry filled_vm)).
  left. reflexivity.
Defined.
